(** * GeoAttendance: the confidence-gated attendance decision engine

    A shallow embedding of [app/attendance.py] (class [AttendanceManager],
    method [detect_and_mark]) and of [src/recognizer/face_recognition_system.py]
    (class [FaceRecognition], methods [load_encodings] and
    [detect_known_faces]).

    Numbers are what the Python code computes with: distances are IEEE-754
    binary64 values (numpy [float64]), modelled by the Standard Library's
    [spec_float] with [prec = 53] and [emax = 1024]; confidences and attempt
    counters are Python integers.  Side effects (frame reads, observer
    callbacks, the back-off sleep, the evidence image, the persistence call)
    are recorded in an event trace; [return] and raised exceptions are
    control outcomes of a small writer/control monad. *)

From Stdlib Require Import ZArith List String Ascii Bool Lia QArith Qabs.
From Stdlib Require Import DecimalString.
From Stdlib Require Import Floats.SpecFloat.
Import ListNotations.

Local Open Scope string_scope.
Local Open Scope list_scope.
Local Open Scope Z_scope.

(* ================================================================== *)
(** ** binary64 arithmetic *)
(* ================================================================== *)

Definition float : Type := spec_float.

Definition prec : Z := 53.
Definition emax : Z := 1024.

Definition fadd : float -> float -> float := SFadd prec emax.
Definition fsub : float -> float -> float := SFsub prec emax.
Definition fmul : float -> float -> float := SFmul prec emax.
Definition fdiv : float -> float -> float := SFdiv prec emax.
Definition fsqrt : float -> float := SFsqrt prec emax.
Definition fltb : float -> float -> bool := SFltb.
Definition fleb : float -> float -> bool := SFleb.

(** The binary64 value of a Python integer literal ([1], [100]), and of a
    decimal literal written as a fraction ([0.6] is [6/10] correctly
    rounded). *)
Definition float_of_Z (z : Z) : float := binary_normalize prec emax z 0 false.
Definition float_of_frac (n d : Z) : float := fdiv (float_of_Z n) (float_of_Z d).

Definition pzero : float := S754_zero false.

Definition is_nan (x : float) : bool :=
  match x with S754_nan => true | _ => false end.

Definition is_finite (x : float) : bool :=
  match x with S754_zero _ | S754_finite _ _ _ => true | _ => false end.

(** [signed s x]: [x] is a number (not NaN) whose sign bit is [s]. *)
Definition signed (s : bool) (x : float) : bool :=
  match x with
  | S754_zero s' | S754_infinity s' | S754_finite s' _ _ => Bool.eqb s s'
  | S754_nan => false
  end.

(** The rational number a finite binary64 value stands for. *)
Definition F2Q (x : float) : Q :=
  match x with
  | S754_finite s m e =>
      if 0 <=? e then inject_Z (cond_Zopp s (Zpos m * 2 ^ e))
      else Qmake (cond_Zopp s (Zpos m)) (2 ^ Z.to_pos (- e))%positive
  | _ => 0%Q
  end.

(** Truncation of a rational toward zero, and the "nearest integer" relation
    that any rounding to the nearest integer has to satisfy. *)
Definition Qtrunc (q : Q) : Z := Z.quot (Qnum q) (Zpos (Qden q)).

Definition nearest_int (q : Q) (z : Z) : Prop :=
  forall z' : Z, (Qabs (q - inject_Z z) <= Qabs (q - inject_Z z'))%Q.



(* ================================================================== *)
(** ** Exceptions, results and the trace monad *)
(* ================================================================== *)

Inductive exn : Type :=
| ValueError
| OverflowError
| IndexError
| FileNotFoundError
| KeyError (key : string).

Inductive res (A : Type) : Type :=
| Ok (a : A)
| Err (e : exn).
Arguments Ok {A} a.
Arguments Err {A} e.

Definition res_bind {A B} (r : res A) (f : A -> res B) : res B :=
  match r with Ok a => f a | Err e => Err e end.

Fixpoint res_map {A B} (f : A -> res B) (l : list A) : res (list B) :=
  match l with
  | [] => Ok []
  | a :: l' =>
      res_bind (f a) (fun b => res_bind (res_map f l') (fun bs => Ok (b :: bs)))
  end.

(** Python's [int(x)] on a float: truncation toward zero; [ValueError] on NaN
    and [OverflowError] on an infinity. *)
Definition py_int (x : float) : res Z :=
  match x with
  | S754_zero _ => Ok 0
  | S754_finite s m e =>
      Ok (cond_Zopp s (if 0 <=? e then Zpos m * 2 ^ e else Zpos m / 2 ^ (- e)))
  | S754_infinity _ => Err OverflowError
  | S754_nan => Err ValueError
  end.

(** [str(n)] for Python integers. *)
Definition str_Z (z : Z) : string := NilZero.string_of_int (Z.to_int z).
Definition str_nat (n : nat) : string := NilZero.string_of_uint (Nat.to_uint n).

(** [sub] occurs somewhere inside [s]. *)
Definition Contains (sub s : string) : Prop :=
  exists pre post : string, s = (pre ++ sub ++ post)%string.

(* ================================================================== *)
(** ** numpy and face_recognition primitives *)
(* ================================================================== *)

Definition encoding : Type := list float.

(** Row-wise [known - probe]; the gallery invariant (one dimension D for all
    entries and probes) makes the two vectors equally long. *)
Definition np_sub (a b : encoding) : encoding :=
  map (fun xy => fsub (fst xy) (snd xy)) (combine a b).

(** [np.linalg.norm] of one row: the square root of the sum of squares. *)
Definition np_norm (v : encoding) : float :=
  fsqrt (fold_left fadd (map (fun x => fmul x x) v) pzero).

(** Modelled from the spec: [face_recognition.face_distance] is a library
    function outside the repository; the spec fixes its metric as the
    Euclidean distance in embedding space between the probe and each gallery
    vector, one distance per gallery row, in gallery order. *)
Definition face_distance (face_encodings : list encoding)
    (face_to_compare : encoding) : list float :=
  map (fun e => np_norm (np_sub e face_to_compare)) face_encodings.


(** [np.argmin] on a float vector: the index of the first minimum; the scan
    updates on [not (x >= current)], so a NaN counts as minimal and stops the
    scan.  An empty vector raises [ValueError]. *)
Fixpoint argmin_from (mp : float) (min_ind i : nat) (l : list float) : nat :=
  match l with
  | [] => min_ind
  | x :: l' =>
      if negb (fleb mp x)
      then (if is_nan x then i else argmin_from x i (S i) l')
      else argmin_from mp min_ind (S i) l'
  end.

Definition np_argmin (l : list float) : res nat :=
  match l with
  | [] => Err ValueError
  | x :: l' => Ok (if is_nan x then 0%nat else argmin_from x 0 1 l')
  end.

(* ================================================================== *)
(** ** Frames, as the face library sees them *)
(* ================================================================== *)

Definition point : Type := (Z * Z)%type.

(** One entry of [face_recognition.face_landmarks]: a dict from group name
    to point list. *)
Definition landmark_dict : Type := list (string * list point).

Fixpoint dict_get (d : landmark_dict) (key : string) : res (list point) :=
  match d with
  | [] => Err (KeyError key)
  | (k, v) :: d' => if String.eqb k key then Ok v else dict_get d' key
  end.

(** A detected face: its box (top, right, bottom, left), the embedding
    computed by [detect_known_faces] ([encoding_first]), the embedding
    computed again by [detect_and_mark] on the same frame after boxes and
    labels may have been drawn on it ([encoding_second]), and what
    [face_landmarks] returns for its box. *)
Record Face : Type := {
  face_location : Z * Z * Z * Z;
  encoding_first : encoding;
  encoding_second : encoding;
  landmarks : list landmark_dict
}.

(** A frame is abstracted to the faces [face_locations] finds in it, in
    detection order. *)
Definition Frame : Type := list Face.

(** [cv2.VideoCapture]: [read] hands out the pending frames one by one; an
    entry [None], or an exhausted feed, is a failed read. *)
Record VideoCapture : Type := {
  isOpened : bool;
  pending : list (option Frame)
}.

Definition cap_read (cap : VideoCapture) : option Frame * VideoCapture :=
  match pending cap with
  | [] => (None, cap)
  | f :: rest => (f, {| isOpened := isOpened cap; pending := rest |})
  end.

(* ================================================================== *)
(** ** FaceRecognition (recognizer/face_recognition_system.py) *)
(* ================================================================== *)

Record FaceRecognition : Type := {
  known_face_names : list string;
  known_face_encodings : list encoding
}.

(** [load_encodings]: the pickled dict is an association list in key order;
    [None] stands for a missing file. *)
Definition load_encodings (file : option (list (string * encoding)))
    : res FaceRecognition :=
  match file with
  | None => Err FileNotFoundError
  | Some encodings =>
      let names := map fst encodings in
      let encs := map snd encodings in
      match encs with
      | [] => Err ValueError
      | _ => Ok {| known_face_names := names; known_face_encodings := encs |}
      end
  end.


Definition default_tolerance : float := float_of_frac 6 10.

(** The body of the loop of [detect_known_faces] for one face: the
    provisional label. *)
Definition provisional_label (self : FaceRecognition) (tolerance : float)
    (face_encoding : encoding) : res string :=
  let face_distances := face_distance (known_face_encodings self) face_encoding in
  res_bind (np_argmin face_distances) (fun best_match_index =>
  if fltb (nth best_match_index face_distances S754_nan) tolerance
  then match nth_error (known_face_names self) best_match_index with
       | Some name => Ok name
       | None => Err IndexError
       end
  else Ok "Unknown").

(** [detect_known_faces(image, tolerance, scale_factor=1.0)]: the boxes and
    one label per face.  With scale factor 1.0 the boxes come back
    unchanged. *)
Definition detect_known_faces (self : FaceRecognition) (image : Frame)
    (tolerance : float) : res (list (Z * Z * Z * Z) * list string) :=
  res_bind (res_map (fun f => provisional_label self tolerance (encoding_first f)) image)
    (fun face_names => Ok (map face_location image, face_names)).

(* ================================================================== *)
(** ** AttendanceManager.detect_and_mark (app/attendance.py) *)
(* ================================================================== *)

Inductive event : Type :=
| EvRead (ret : bool)                          (* self.cap.read() *)
| EvCallback (success : bool) (message : string)
| EvSleep (seconds : nat)                      (* time.sleep(1) *)
| EvImwrite (path : string) (frame : Frame)    (* cv2.imwrite *)
| EvMark (student_id student_name : string) (session_id : option string)
         (photo_path : string) (confidence : Z). (* mark_attendance *)

Inductive ctl (A : Type) : Type :=
| Next (a : A)                         (* fall through to the next statement *)
| Return (success : bool) (message : string)
| Raise (e : exn).
Arguments Next {A} a.
Arguments Return {A} success message.
Arguments Raise {A} e.

Definition M (A : Type) : Type := (list event * ctl A)%type.

Definition ret {A} (a : A) : M A := ([], Next a).

Definition bind {A B} (m : M A) (k : A -> M B) : M B :=
  match snd m with
  | Next a => (fst m ++ fst (k a), snd (k a))
  | Return ok msg => (fst m, Return ok msg)
  | Raise e => (fst m, Raise e)
  end.

Notation "x <- m ;; k" := (bind m (fun x => k))
  (at level 61, m at next level, right associativity).
Notation "m ;;; k" := (bind m (fun _ => k))
  (at level 61, right associativity).

Definition emit (e : event) : M unit := ([e], Next tt).
Definition return_ {A} (ok : bool) (msg : string) : M A := ([], Return ok msg).
Definition lift {A} (r : res A) : M A :=
  match r with Ok a => ret a | Err e => ([], Raise e) end.

(** [if callback: callback(ok, msg)] *)
Definition notify (callback : bool) (ok : bool) (msg : string) : M unit :=
  if callback then emit (EvCallback ok msg) else ret tt.

Fixpoint for_each {A} (body : A -> M unit) (l : list A) : M unit :=
  match l with
  | [] => ret tt
  | a :: l' => body a ;;; for_each body l'
  end.

Record AttendanceManager : Type := {
  recognizer : FaceRecognition;
  cap : option VideoCapture;
  max_retries : nat
}.

Definition min_confidence : Z := 50.

(** Line 92: [max(0, min(100, int((1 - distance) * 100)))]. *)
Definition scaled (distance : float) : float :=
  fmul (fsub (float_of_Z 1) distance) (float_of_Z 100).

Definition clamp (c : Z) : Z := Z.max 0 (Z.min 100 c).

Definition confidence_of (distance : float) : res Z :=
  res_bind (py_int (scaled distance)) (fun c => Ok (clamp c)).

(** Lines 84-89: the distance the gate scores, the minimum over the
    gallery. *)
Definition best_distance (self : FaceRecognition) (face_encoding : encoding)
    : res float :=
  let face_distances := face_distance (known_face_encodings self) face_encoding in
  res_bind (np_argmin face_distances) (fun best_match_index =>
  Ok (nth best_match_index face_distances S754_nan)).

(** The messages of the f-strings. *)
Definition msg_camera : string := "Camera not started.".
Definition msg_capture : string := "Failed to capture frame.".
Definition msg_not_recognized : string := "Face not recognized after maximum retries.".
Definition msg_pose (attempt max : nat) : string :=
  ("Face not frontal enough (Attempt " ++ str_nat (attempt + 1) ++ "/" ++ str_nat max
   ++ "). Please adjust position.")%string.
Definition msg_success (student_name : string) (confidence : Z) (attempt : nat) : string :=
  ("Attendance marked for " ++ student_name ++ " (Confidence: " ++ str_Z confidence
   ++ "% | Attempt " ++ str_nat (attempt + 1) ++ ")")%string.
Definition msg_retry (confidence : Z) (attempt max : nat) : string :=
  ("Confidence too low (" ++ str_Z confidence ++ "%). Retrying... ("
   ++ str_nat (attempt + 2) ++ "/" ++ str_nat max ++ ")")%string.
Definition msg_low (confidence : Z) : string :=
  ("Face recognized but confidence too low (" ++ str_Z confidence
   ++ "%). Minimum required: " ++ str_Z min_confidence ++ "%. No more retries.")%string.

Definition photo_path (student_id now : string) : string :=
  ("attendance_photos/" ++ student_id ++ "_" ++ now ++ ".jpg")%string.

Section DetectAndMark.
Variable self : AttendanceManager.
Variables student_id student_name : string.
Variable session_id : option string.
(** Whether an observer callback was passed. *)
Variable callback : bool.
(** [datetime.now().strftime('%Y%m%d_%H%M%S')] at the moment of acceptance. *)
Variable now : string.

(** Lines 83-133: the body of the inner loop once its guard has passed,
    for the face at the current index. *)
Definition gate (attempt : nat) (frame : Frame) (face : Face) : M unit :=
  distance <- lift (best_distance (recognizer self) (encoding_second face)) ;;
  confidence <- lift (confidence_of distance) ;;
  match landmarks face with
  | [] => ret tt                                        (* continue *)
  | face_landmarks0 :: _ =>
      left_eye <- lift (dict_get face_landmarks0 "left_eye") ;;
      if (List.length left_eye <? 6)%nat
      then notify callback false (msg_pose attempt (max_retries self))
      else
        right_eye <- lift (dict_get face_landmarks0 "right_eye") ;;
        if (List.length right_eye <? 6)%nat
        then notify callback false (msg_pose attempt (max_retries self))
        else if min_confidence <=? confidence
        then
          emit (EvImwrite (photo_path student_id now) frame) ;;;
          emit (EvMark student_id student_name session_id
                       (photo_path student_id now) confidence) ;;;
          notify callback true (msg_success student_name confidence attempt) ;;;
          return_ true (msg_success student_name confidence attempt)
        else if (attempt <? max_retries self - 1)%nat
        then
          notify callback false (msg_retry confidence attempt (max_retries self)) ;;;
          emit (EvSleep 1)
        else
          notify callback false (msg_low confidence) ;;;
          return_ false (msg_low confidence)
  end.

(** Lines 80-81: [for i, box in enumerate(face_locations): if name ==
    student_name: ...]; [name] is the variable of the enclosing loop. *)
Definition faces_loop (attempt : nat) (frame : Frame) (name : string) : M unit :=
  for_each (fun face =>
              if String.eqb name student_name then gate attempt frame face
              else ret tt)
           frame.

(** Lines 72-73: [for name in face_names: if name == student_name: ...]. *)
Definition names_loop (attempt : nat) (frame : Frame) (face_names : list string)
    : M unit :=
  for_each (fun name =>
              if String.eqb name student_name then faces_loop attempt frame name
              else ret tt)
           face_names.

(** Lines 57-133: [for attempt in range(self.max_retries)], from attempt
    number [attempt] with [remaining] iterations to go. *)
Fixpoint attempts_loop (attempt remaining : nat) (c : VideoCapture) : M unit :=
  match remaining with
  | O => ret tt
  | S remaining' =>
      match cap_read c with
      | (None, _) =>
          emit (EvRead false) ;;;
          notify callback false msg_capture ;;;
          return_ false msg_capture
      | (Some frame, c') =>
          emit (EvRead true) ;;;
          detected <- lift (detect_known_faces (recognizer self) frame default_tolerance) ;;
          names_loop attempt frame (snd detected) ;;;
          attempts_loop (S attempt) remaining' c'
      end
  end.

Definition detect_and_mark : M unit :=
  match cap self with
  | None => notify callback false msg_camera ;;; return_ false msg_camera
  | Some c =>
      if negb (isOpened c)
      then notify callback false msg_camera ;;; return_ false msg_camera
      else
        attempts_loop 0 (max_retries self) c ;;;
        notify callback false msg_not_recognized ;;;
        return_ false msg_not_recognized
  end.
End DetectAndMark.

(** The events of [if callback: callback(ok, msg)]. *)
Definition cb_events (callback ok : bool) (msg : string) : list event :=
  if callback then [EvCallback ok msg] else [].

(** A string that shows no decimal digit shows no number. *)
Definition is_digit (c : ascii) : bool :=
  ((48 <=? nat_of_ascii c) && (nat_of_ascii c <=? 57))%nat.

Fixpoint has_digit (s : string) : bool :=
  match s with
  | EmptyString => false
  | String c s' => is_digit c || has_digit s'
  end.

(** A frame in which no provisional label equals the claimed identity. *)
Definition no_match (self : AttendanceManager) (student_name : string)
    (frame : Frame) : Prop :=
  exists detected,
    detect_known_faces (recognizer self) frame default_tolerance = Ok detected /\
    ~ In student_name (snd detected).

(** The gate's inputs for one face: the confidence line 92 computes, and
    what lines 95-100 find in the landmarks. *)
Definition scored (self : AttendanceManager) (face : Face) (c : Z) : Prop :=
  exists d, best_distance (recognizer self) (encoding_second face) = Ok d /\
            confidence_of d = Ok c.

Definition eyes_visible (face : Face) : Prop :=
  exists lm rest l r,
    landmarks face = lm :: rest /\
    dict_get lm "left_eye" = Ok l /\ dict_get lm "right_eye" = Ok r /\
    (6 <= List.length l)%nat /\ (6 <= List.length r)%nat.

Definition eyes_short (face : Face) : Prop :=
  exists lm rest l,
    landmarks face = lm :: rest /\
    dict_get lm "left_eye" = Ok l /\
    ((List.length l < 6)%nat \/
     exists r, dict_get lm "right_eye" = Ok r /\ (List.length r < 6)%nat).

(** A frame showing exactly one face, provisionally labelled with the
    claimed identity. *)
Definition sole_claimant (self : AttendanceManager) (student_name : string)
    (frame : Frame) (face : Face) : Prop :=
  frame = [face] /\
  provisional_label (recognizer self) default_tolerance (encoding_first face)
  = Ok student_name.

(** The six ways one gate evaluation (lines 83-133) can end. *)
Inductive gate_result (self : AttendanceManager) (student_id student_name : string)
    (session_id : option string) (callback : bool) (now : string)
    (attempt : nat) (frame : Frame) : M unit -> Prop :=
| GateRaised (e : exn) :
    gate_result self student_id student_name session_id callback now attempt frame
      ([], Raise e)
| GateNoLandmarks :
    gate_result self student_id student_name session_id callback now attempt frame
      ([], Next tt)
| GatePose :
    gate_result self student_id student_name session_id callback now attempt frame
      (cb_events callback false (msg_pose attempt (max_retries self)), Next tt)
| GateAccepted (c : Z) :
    50 <= c <= 100 ->
    gate_result self student_id student_name session_id callback now attempt frame
      ([EvImwrite (photo_path student_id now) frame;
        EvMark student_id student_name session_id (photo_path student_id now) c]
       ++ cb_events callback true (msg_success student_name c attempt),
       Return true (msg_success student_name c attempt))
| GateRetry (c : Z) :
    0 <= c < 50 -> (attempt < max_retries self - 1)%nat ->
    gate_result self student_id student_name session_id callback now attempt frame
      (cb_events callback false (msg_retry c attempt (max_retries self)) ++ [EvSleep 1],
       Next tt)
| GateLow (c : Z) :
    0 <= c < 50 -> ~ (attempt < max_retries self - 1)%nat ->
    gate_result self student_id student_name session_id callback now attempt frame
      (cb_events callback false (msg_low c), Return false (msg_low c)).

(** Counters over a trace. *)
Definition is_read (e : event) : bool :=
  match e with EvRead _ => true | _ => false end.
Definition is_sleep (e : event) : bool :=
  match e with EvSleep _ => true | _ => false end.
Definition is_imwrite (e : event) : bool :=
  match e with EvImwrite _ _ => true | _ => false end.
Definition is_mark (e : event) : bool :=
  match e with EvMark _ _ _ _ _ => true | _ => false end.

Definition count (p : event -> bool) (tr : list event) : nat :=
  List.length (filter p tr).

(** A trace without its observer notifications. *)
Definition is_callback (e : event) : bool :=
  match e with EvCallback _ _ => true | _ => false end.

Definition strip (ev : list event) : list event :=
  filter (fun e => negb (is_callback e)) ev.

(** [m2] does what [m1] does, minus the notifications. *)
Definition muted {A} (m1 m2 : M A) : Prop :=
  snd m2 = snd m1 /\ fst m2 = strip (fst m1).

(** A returned outcome was notified last. *)
Definition notified {A} (callback : bool) (m : M A) : Prop :=
  forall ok msg, snd m = Return ok msg ->
    exists pre, fst m = pre ++ cb_events callback ok msg.

(** For every sleep of a trace, its length and the number of frames read
    before it ([reads] frames were read before the trace starts). *)
Fixpoint sleeps_at (reads : nat) (ev : list event) : list (nat * nat) :=
  match ev with
  | [] => []
  | EvRead _ :: ev' => sleeps_at (S reads) ev'
  | EvSleep s :: ev' => (s, reads) :: sleeps_at reads ev'
  | _ :: ev' => sleeps_at reads ev'
  end.

(** A notification of success. *)
Definition is_success (e : event) : bool :=
  match e with EvCallback true _ => true | _ => false end.

(** Events that are not part of an attendance record: no persistence call,
    no evidence image, no notification of success. *)
Definition unrecorded (e : event) : Prop :=
  is_mark e = false /\ is_imwrite e = false /\ is_success e = false.

(** Events that are neither a frame read nor part of an attendance record. *)
Definition plain (e : event) : Prop :=
  is_read e = false /\ unrecorded e.

(** What the loops over one frame can produce: nothing recorded and no
    success, or one record followed by its notification and success. *)
Inductive pass_result (student_id student_name : string)
    (session_id : option string) (callback : bool) (now : string)
    (attempt : nat) (frame : Frame) : M unit -> Prop :=
| PassQuiet (ev : list event) (c : ctl unit) :
    Forall plain ev -> (forall msg, c <> Return true msg) ->
    pass_result student_id student_name session_id callback now attempt frame (ev, c)
| PassAccepted (pre : list event) (conf : Z) :
    Forall plain pre -> 50 <= conf <= 100 ->
    pass_result student_id student_name session_id callback now attempt frame
      (pre ++ [EvImwrite (photo_path student_id now) frame;
               EvMark student_id student_name session_id (photo_path student_id now) conf]
           ++ cb_events callback true (msg_success student_name conf attempt),
       Return true (msg_success student_name conf attempt)).

(** What the attempts loop, started at attempt [first] with [n] iterations
    to go, can produce. *)
Inductive loop_result (student_id student_name : string)
    (session_id : option string) (callback : bool) (now : string)
    (first n : nat) : M unit -> Prop :=
| LoopQuiet (ev : list event) (c : ctl unit) :
    Forall unrecorded ev -> (forall msg, c <> Return true msg) ->
    loop_result student_id student_name session_id callback now first n (ev, c)
| LoopAccepted (pre : list event) (conf : Z) (attempt : nat) (frame : Frame) :
    Forall unrecorded pre -> 50 <= conf <= 100 ->
    (first <= attempt < first + n)%nat ->
    count is_read pre = (attempt - first + 1)%nat ->
    loop_result student_id student_name session_id callback now first n
      (pre ++ [EvImwrite (photo_path student_id now) frame;
               EvMark student_id student_name session_id (photo_path student_id now) conf]
           ++ cb_events callback true (msg_success student_name conf attempt),
       Return true (msg_success student_name conf attempt)).



(* ================================================================== *)
(** ** The rest of AttendanceManager: construction and the camera *)
(* ================================================================== *)

(** The attributes of [AttendanceManager] that [start_camera] and
    [stop_camera] maintain next to the capture object. *)
Record ManagerState : Type := {
  manager : AttendanceManager;
  camera_running : bool;
  retry_count : nat
}.

(** What the manager does to the outside besides reading frames. *)
Inductive ui_event : Type :=
| ShowError (title message : string)       (* messagebox.showerror *)
| Release.                                 (* self.cap.release() *)

Definition with_cap (m : AttendanceManager) (c : option VideoCapture)
    : AttendanceManager :=
  {| recognizer := recognizer m; cap := c; max_retries := max_retries m |}.

(** [__init__]: load the gallery (which may raise), no camera yet, three
    attempts per call. *)
Definition manager_init (file : option (list (string * encoding)))
    : res ManagerState :=
  res_bind (load_encodings file) (fun r =>
  Ok {| manager := {| recognizer := r; cap := None; max_retries := 3 |};
        camera_running := false;
        retry_count := 0 |}).

(** [start_camera]; [device] is the object [cv2.VideoCapture(0)] hands
    out, opened or not. *)
Definition start_camera (device : VideoCapture) (s : ManagerState)
    : ManagerState * list ui_event :=
  if camera_running s then (s, [])
  else if isOpened device
  then ({| manager := with_cap (manager s) (Some device);
           camera_running := true;
           retry_count := retry_count s |}, [])
  else ({| manager := with_cap (manager s) (Some device);
           camera_running := false;
           retry_count := retry_count s |},
        [ShowError "Error" "Could not open camera."]).

(** [stop_camera] *)
Definition stop_camera (s : ManagerState) : ManagerState * list ui_event :=
  ({| manager := with_cap (manager s) None;
      camera_running := false;
      retry_count := 0 |},
   match cap (manager s) with Some _ => [Release] | None => [] end).

(** Sequences of camera operations, as the window's toggle button issues
    them. *)
Inductive camera_op : Type :=
| Start (device : VideoCapture)
| Stop.

Definition camera_step (s : ManagerState) (op : camera_op) : ManagerState :=
  match op with
  | Start device => fst (start_camera device s)
  | Stop => fst (stop_camera s)
  end.

Definition camera_steps (ops : list camera_op) (s : ManagerState) : ManagerState :=
  fold_left camera_step ops s.

(* ================================================================== *)
(** ** AttendanceWorker.run (app/main_app.py) *)
(* ================================================================== *)

(** The Qt signal [finished(bool, str)]. *)
Inductive signal : Type :=
| Finished (success : bool) (message : string).

Definition signal_success (s : signal) : bool :=
  match s with Finished ok _ => ok end.

(** The signals the callback [cb] emits along a trace. *)
Definition emitted (ev : list event) : list signal :=
  flat_map (fun e => match e with
                     | EvCallback ok msg => [Finished ok msg]
                     | _ => []
                     end) ev.

(** [run]: call [detect_and_mark] with [cb] as observer and the worker's
    [photo_path] in the place of the session; an exception becomes one more
    failure signal.  [error_text] is [str(e)]. *)
Definition worker_run (error_text : exn -> string) (self : AttendanceManager)
    (student_id name : string) (photo_path : option string) (now : string)
    : list signal :=
  let r := detect_and_mark self student_id name photo_path true now in
  emitted (fst r)
  ++ match snd r with
     | Raise e => [Finished false ("Error: " ++ error_text e)%string]
     | _ => []
     end.

(* ================================================================== *)
(** ** Concrete data used by the examples *)
(* ================================================================== *)

Module Sample.
Definition f0 : float := float_of_Z 0.

(** A landmark dict with six points per eye, as the 68-point model gives. *)
Definition eyes6 : landmark_dict :=
  [("left_eye", repeat (0, 0) 6); ("right_eye", repeat (0, 0) 6)].

(** A dict whose left eye has only five points. *)
Definition eyes5 : landmark_dict :=
  [("left_eye", repeat (0, 0) 5); ("right_eye", repeat (0, 0) 6)].

Definition mkface (e : encoding) (lm : list landmark_dict) : Face :=
  {| face_location := (0, 0, 0, 0); encoding_first := e;
     encoding_second := e; landmarks := lm |}.

(** Two enrolled identities, two-dimensional embeddings. *)
Definition gallery_file : list (string * encoding) :=
  [("alice", [f0; f0]); ("bob", [float_of_Z 2; f0])].

Definition gallery : FaceRecognition :=
  {| known_face_names := map fst gallery_file;
     known_face_encodings := map snd gallery_file |}.

Definition manager (feed : list (option Frame)) : AttendanceManager :=
  {| recognizer := gallery;
     cap := Some {| isOpened := true; pending := feed |};
     max_retries := 3 |}.

(** Probes at distance 1/16, 1/2, 9/16 and 3/4 from alice's embedding. *)
Definition probe_at (n d : Z) : encoding := [float_of_frac n d; f0].
Definition face_at (n d : Z) : Face := mkface (probe_at n d) [eyes6].


(** Bob himself. *)
Definition bob_face : Face := mkface [float_of_Z 2; f0] [eyes6].
End Sample.

(* ================================================================== *)
(** * Properties *)
(* ================================================================== *)

(** ** Python's [int] is truncation toward zero *)

Lemma py_int_finite (x : float) :
  is_finite x = true -> py_int x = Ok (Qtrunc (F2Q x)).
Proof.
  destruct x as [s | s | | s m e]; try discriminate; intros _.
  - reflexivity.
  - unfold py_int, F2Q, Qtrunc.
    destruct (0 <=? e) eqn:He.
    + simpl. now rewrite Z.quot_1_r.
    + apply Z.leb_gt in He.
      destruct e as [| p | p]; try lia.
      cbn [Z.opp Z.to_pos Qnum Qden].
      rewrite Pos2Z.inj_pow.
      destruct s; cbn [cond_Zopp].
      * rewrite Z.quot_opp_l by (apply Z.pow_nonzero; lia).
        rewrite Z.quot_div_nonneg; [reflexivity | lia |].
        apply Z.pow_pos_nonneg; lia.
      * rewrite Z.quot_div_nonneg; [reflexivity | lia |].
        apply Z.pow_pos_nonneg; lia.
Qed.

Lemma py_int_raises (x : float) :
  is_finite x = false -> exists e, py_int x = Err e.
Proof.
  destruct x; try discriminate; intros _; simpl; eauto.
Qed.

Lemma clamp_range (c : Z) : 0 <= clamp c <= 100.
Proof. unfold clamp; lia. Qed.

Lemma clamp_id (c : Z) : 0 <= c <= 100 -> clamp c = c.
Proof. unfold clamp; lia. Qed.

(** C1 (amended): the confidence is the scaled value [(1 - d) * 100],
    computed in binary64, truncated toward zero (Python's [int]) and then
    clamped to [0, 100]; there is no rounding to the nearest integer. *)
Theorem confidence_truncates (d : float) :
  is_finite (scaled d) = true ->
  confidence_of d = Ok (clamp (Qtrunc (F2Q (scaled d)))).
Proof.
  intro H. unfold confidence_of.
  rewrite (py_int_finite _ H). reflexivity.
Qed.

Lemma confidence_truncates_witness :
  is_finite (scaled (float_of_frac 1 16)) = true /\
  confidence_of (float_of_frac 1 16)
  = Ok (clamp (Qtrunc (F2Q (scaled (float_of_frac 1 16))))).
Proof.
  split; [reflexivity | apply confidence_truncates; reflexivity].
Defined.

(** C1 (as stated) fails: at distance 1/16, which the matcher produces for
    a probe 1/16 away from alice, the scaled value is exactly 93.75; every
    nearest integer is 94, but the code yields 93. *)
Lemma confidence_not_rounded :
  let d := float_of_frac 1 16 in
  best_distance Sample.gallery (Sample.probe_at 1 16) = Ok d /\
  (F2Q (scaled d) == 375 # 4)%Q /\
  confidence_of d = Ok 93 /\
  forall r : Z, nearest_int (F2Q (scaled d)) r ->
                r = 94 /\ confidence_of d <> Ok (clamp r).
Proof.
  cbv zeta. split; [reflexivity |]. split; [reflexivity |].
  split; [reflexivity |].
  intros r Hr.
  assert (r = 94) as ->.
  { specialize (Hr 94).
    assert (E : (F2Q (scaled (float_of_frac 1 16)) == 375 # 4)%Q) by reflexivity.
    rewrite E in Hr.
    apply Qabs_Qle_condition in Hr. destruct Hr as [H1 H2].
    revert H1 H2. unfold Qle, Qabs, Qminus, Qplus, Qopp, inject_Z.
    cbn [Qnum Qden]. lia. }
  split; [reflexivity | discriminate].
Qed.

(** ** The order of binary64 comparisons *)













(** ** [np.argmin] returns the first index of the minimum *)



Section Argmin.
Variable ds : list float.
Hypothesis numbers : forall j, (j < List.length ds)%nat -> is_nan (nth j ds S754_nan) = false.

Local Notation "'d_' j" := (nth j ds S754_nan) (at level 9, j at level 9).


End Argmin.


Lemma face_distance_length (encs : list encoding) (probe : encoding) :
  List.length (face_distance encs probe) = List.length encs.
Proof. unfold face_distance. now rewrite length_map. Qed.


Lemma provisional_label_argmin (self : FaceRecognition) (tol : float)
    (probe : encoding) (k : nat) :
  np_argmin (face_distance (known_face_encodings self) probe) = Ok k ->
  provisional_label self tol probe
  = if fltb (nth k (face_distance (known_face_encodings self) probe) S754_nan) tol
    then match nth_error (known_face_names self) k with
         | Some name => Ok name
         | None => Err IndexError
         end
    else Ok "Unknown"%string.
Proof. intro H. unfold provisional_label. now rewrite H. Qed.



(** ** Rounding never invents a NaN *)




















Lemma nonneg_above_zero (x : float) : signed false x = true -> fleb pzero x = true.
Proof.
  destruct x as [s | s | | s m e]; simpl; try discriminate;
    destruct s; try discriminate; reflexivity.
Qed.


(** ** Confidence range and the distance of an enrolled embedding *)







(** ** The two matching steps and the tolerance of the labelling step *)

Lemma argmin_from_bound (l : list float) :
  forall (mp : float) (mi i : nat),
    (mi < i)%nat -> (argmin_from mp mi i l < i + List.length l)%nat.
Proof.
  induction l as [| x l IH]; intros mp mi i Hmi; simpl; [lia |].
  destruct (negb (fleb mp x)).
  - destruct (is_nan x); [lia |].
    specialize (IH x i (S i) ltac:(lia)). lia.
  - specialize (IH mp mi (S i) ltac:(lia)). lia.
Qed.

Lemma np_argmin_bound (l : list float) (k : nat) :
  np_argmin l = Ok k -> (k < List.length l)%nat.
Proof.
  destruct l as [| x l]; simpl; [discriminate |].
  intro H. inversion H; subst; clear H.
  destruct (is_nan x); [lia |].
  pose proof (argmin_from_bound l x 0 1 ltac:(lia)). lia.
Qed.

Lemma np_argmin_nonempty (l : list float) :
  l <> [] -> exists k, np_argmin l = Ok k.
Proof. destruct l; [congruence | simpl; eauto]. Qed.

Lemma load_encodings_shape (file : list (string * encoding)) (self : FaceRecognition) :
  load_encodings (Some file) = Ok self ->
  known_face_names self = map fst file /\
  known_face_encodings self = map snd file /\
  file <> [].
Proof.
  unfold load_encodings. destruct file as [| [n e] file]; simpl; [discriminate |].
  intro H. inversion H; subst; clear H. simpl. repeat split; discriminate.
Qed.




(** ** The retry engine *)

Lemma bind_next {A B} (ev : list event) (a : A) (k : A -> M B) :
  bind (ev, Next a) k = (ev ++ fst (k a), snd (k a)).
Proof. reflexivity. Qed.

Lemma bind_return {A B} (ev : list event) (ok : bool) (msg : string) (k : A -> M B) :
  bind (ev, Return ok msg) k = (ev, Return ok msg).
Proof. reflexivity. Qed.

Lemma bind_raise {A B} (ev : list event) (e : exn) (k : A -> M B) :
  bind (ev, Raise e) k = (ev, Raise e).
Proof. reflexivity. Qed.

Lemma notify_events (callback ok : bool) (msg : string) :
  notify callback ok msg = (cb_events callback ok msg, Next tt).
Proof. now destruct callback. Qed.

Lemma cap_read_cons (c : VideoCapture) (f : option Frame) (rest : list (option Frame)) :
  pending c = f :: rest ->
  cap_read c = (f, {| isOpened := isOpened c; pending := rest |}).
Proof. intro H. unfold cap_read. now rewrite H. Qed.

Section Run.
Variable self : AttendanceManager.
Variables student_id student_name : string.
Variable session_id : option string.
Variable callback : bool.
Variable now : string.

Local Notation "'run_gate'" := (gate self student_id student_name session_id callback now).
Local Notation "'run_faces'" := (faces_loop self student_id student_name session_id callback now).
Local Notation "'run_names'" := (names_loop self student_id student_name session_id callback now).
Local Notation "'run_attempts'" := (attempts_loop self student_id student_name session_id callback now).
Local Notation "'run'" := (detect_and_mark self student_id student_name session_id callback now).

Lemma names_loop_no_match (attempt : nat) (frame : Frame) (names : list string) :
  ~ In student_name names -> run_names attempt frame names = ([], Next tt).
Proof.
  induction names as [| name names IH]; intro Hn; [reflexivity |].
  unfold names_loop in *. cbn [for_each].
  destruct (String.eqb_spec name student_name) as [E | E].
  - exfalso. apply Hn. now left.
  - rewrite IH by (intro; apply Hn; now right). reflexivity.
Qed.

Lemma attempts_loop_no_match (frames : list Frame) :
  forall (attempt : nat) (c : VideoCapture) (rest : list (option Frame)),
    pending c = map Some frames ++ rest ->
    Forall (no_match self student_name) frames ->
    run_attempts attempt (List.length frames) c
    = (repeat (EvRead true) (List.length frames), Next tt).
Proof.
  induction frames as [| frame frames IH]; intros attempt c rest Hc Hall;
    [reflexivity |].
  inversion Hall as [| ? ? (detected & Hdet & Hno) Hall']; subst.
  cbn [List.length attempts_loop].
  rewrite (cap_read_cons c (Some frame) (map Some frames ++ rest) Hc).
  rewrite Hdet. cbn [lift ret bind emit fst snd app].
  rewrite (names_loop_no_match attempt frame (snd detected) Hno).
  rewrite (IH (S attempt) {| isOpened := isOpened c; pending := map Some frames ++ rest |}
              rest eq_refl Hall').
  reflexivity.
Qed.

(** C2: with the camera open, when each of the first [max_retries] reads
    delivers a frame in which no provisional label equals the claimed
    identity, the run reads exactly [max_retries] frames, evaluates no face,
    and ends with the not-recognized failure, whose message shows no
    number. *)
Theorem not_recognized_after_max_retries
    (c : VideoCapture) (frames : list Frame) (rest : list (option Frame)) :
  cap self = Some c -> isOpened c = true ->
  pending c = map Some frames ++ rest ->
  List.length frames = max_retries self ->
  Forall (no_match self student_name) frames ->
  run = (repeat (EvRead true) (max_retries self)
         ++ cb_events callback false msg_not_recognized,
         Return false msg_not_recognized) /\
  count is_read (fst run) = max_retries self /\
  has_digit msg_not_recognized = false.
Proof.
  intros Hcap Hopen Hc Hlen Hall.
  assert (E : run = (repeat (EvRead true) (max_retries self)
                     ++ cb_events callback false msg_not_recognized,
                     Return false msg_not_recognized)).
  { unfold detect_and_mark. rewrite Hcap, Hopen. cbn [negb].
    rewrite <- Hlen, (attempts_loop_no_match frames 0 c rest Hc Hall).
    rewrite notify_events. cbn. now rewrite app_nil_r. }
  split; [exact E |]. split; [| reflexivity].
  rewrite E. cbn [fst]. unfold count. rewrite filter_app, length_app.
  assert (H1 : forall n, filter is_read (repeat (EvRead true) n) = repeat (EvRead true) n)
    by (induction n as [| n IHn]; simpl; congruence).
  rewrite H1, repeat_length.
  destruct callback; simpl; lia.
Qed.
End Run.

Lemma not_recognized_after_max_retries_witness :
  let frames := [[Sample.face_at 3 4]; []; [Sample.bob_face]] in
  let self := Sample.manager (map Some frames) in
  let c := {| isOpened := true; pending := map Some frames |} in
  detect_and_mark self "42" "alice" None true "20260101_090000"
  = (repeat (EvRead true) (max_retries self)
     ++ cb_events true false msg_not_recognized,
     Return false msg_not_recognized) /\
  count is_read (fst (detect_and_mark self "42" "alice" None true "20260101_090000"))
  = max_retries self /\
  has_digit msg_not_recognized = false.
Proof.
  cbv zeta.
  apply (not_recognized_after_max_retries
           (Sample.manager (map Some [[Sample.face_at 3 4]; []; [Sample.bob_face]]))
           "42" "alice" None true "20260101_090000"
           {| isOpened := true;
              pending := map Some [[Sample.face_at 3 4]; []; [Sample.bob_face]] |}
           [[Sample.face_at 3 4]; []; [Sample.bob_face]] []).
  - reflexivity.
  - reflexivity.
  - simpl. reflexivity.
  - reflexivity.
  - repeat constructor.
    + eexists. split; [vm_compute; reflexivity |]. simpl.
      intros [H | []]. discriminate.
    + eexists. split; [vm_compute; reflexivity |]. simpl. tauto.
    + eexists. split; [vm_compute; reflexivity |]. simpl.
      intros [H | []]. discriminate.
Defined.

(** ** Laws of the trace monad *)

Lemma bind_lift_ok {A B} (a : A) (k : A -> M B) : bind (lift (Ok a)) k = k a.
Proof. unfold bind, lift, ret. cbn. now destruct (k a). Qed.

Lemma bind_lift_err {A B} (e : exn) (k : A -> M B) :
  bind (lift (Err e)) k = ([], Raise e).
Proof. reflexivity. Qed.

Lemma bind_emit {B} (e : event) (k : unit -> M B) :
  bind (emit e) k = (e :: fst (k tt), snd (k tt)).
Proof. reflexivity. Qed.

Lemma bind_notify {B} (callback ok : bool) (msg : string) (k : unit -> M B) :
  bind (notify callback ok msg) k
  = (cb_events callback ok msg ++ fst (k tt), snd (k tt)).
Proof. rewrite notify_events. reflexivity. Qed.

Lemma bind_ret {A B} (a : A) (k : A -> M B) : bind (ret a) k = k a.
Proof. unfold bind, ret. cbn. now destruct (k a). Qed.

Lemma confidence_of_range (d : float) (c : Z) :
  confidence_of d = Ok c -> 0 <= c <= 100.
Proof.
  unfold confidence_of. destruct (py_int (scaled d)); simpl; [| discriminate].
  intro H. inversion H. apply clamp_range.
Qed.

Section Gate.
Variable self : AttendanceManager.
Variables student_id student_name : string.
Variable session_id : option string.
Variable callback : bool.
Variable now : string.

Local Notation "'run_gate'" := (gate self student_id student_name session_id callback now).
Local Notation "'run_faces'" := (faces_loop self student_id student_name session_id callback now).
Local Notation "'run_names'" := (names_loop self student_id student_name session_id callback now).
Local Notation "'run_attempts'" := (attempts_loop self student_id student_name session_id callback now).
Local Notation "'run'" := (detect_and_mark self student_id student_name session_id callback now).
Local Notation "'gate_ends'" := (gate_result self student_id student_name session_id callback now).

(** Every gate evaluation ends in one of the six ways. *)
Lemma gate_cases (attempt : nat) (frame : Frame) (face : Face) :
  gate_ends attempt frame (run_gate attempt frame face).
Proof.
  unfold gate.
  destruct (best_distance (recognizer self) (encoding_second face)) as [d | e];
    [rewrite bind_lift_ok | rewrite bind_lift_err; constructor].
  destruct (confidence_of d) as [c | e] eqn:Ec;
    [rewrite bind_lift_ok | rewrite bind_lift_err; constructor].
  pose proof (confidence_of_range d c Ec) as Hc.
  destruct (landmarks face) as [| lm rest]; [constructor |].
  destruct (dict_get lm "left_eye") as [l | e];
    [rewrite bind_lift_ok | rewrite bind_lift_err; constructor].
  destruct (List.length l <? 6)%nat; [rewrite notify_events; constructor |].
  destruct (dict_get lm "right_eye") as [r | e];
    [rewrite bind_lift_ok | rewrite bind_lift_err; constructor].
  destruct (List.length r <? 6)%nat; [rewrite notify_events; constructor |].
  unfold min_confidence.
  destruct (50 <=? c) eqn:E50.
  - apply Z.leb_le in E50.
    rewrite !bind_emit, bind_notify. cbn [fst snd return_].
    rewrite app_nil_r.
    apply (GateAccepted _ _ _ _ _ _ _ _ c). lia.
  - apply Z.leb_gt in E50.
    destruct (attempt <? max_retries self - 1)%nat eqn:El.
    + apply Nat.ltb_lt in El. rewrite bind_notify. cbn [fst snd emit].
      apply GateRetry; [lia | exact El].
    + apply Nat.ltb_ge in El. rewrite bind_notify. cbn [fst snd return_].
      rewrite app_nil_r. apply GateLow; [lia | lia].
Qed.
End Gate.

(** ** Shape of the traces *)

Lemma count_app (p : event -> bool) (a b : list event) :
  count p (a ++ b) = (count p a + count p b)%nat.
Proof. unfold count. now rewrite filter_app, length_app. Qed.

Lemma count_none (p : event -> bool) (ev : list event) :
  Forall (fun e => p e = false) ev -> count p ev = 0%nat.
Proof.
  unfold count. induction 1 as [| e ev He _ IH]; simpl; [reflexivity |].
  now rewrite He.
Qed.

Lemma cb_events_plain (callback : bool) (msg : string) :
  Forall plain (cb_events callback false msg).
Proof. destruct callback; repeat constructor. Qed.

Lemma plain_unrecorded (ev : list event) : Forall plain ev -> Forall unrecorded ev.
Proof. apply Forall_impl. intros e (_ & H). exact H. Qed.

Section Engine.
Variable self : AttendanceManager.
Variables student_id student_name : string.
Variable session_id : option string.
Variable callback : bool.
Variable now : string.

Local Notation "'run_gate'" := (gate self student_id student_name session_id callback now).
Local Notation "'run_faces'" := (faces_loop self student_id student_name session_id callback now).
Local Notation "'run_names'" := (names_loop self student_id student_name session_id callback now).
Local Notation "'run_attempts'" := (attempts_loop self student_id student_name session_id callback now).
Local Notation "'run'" := (detect_and_mark self student_id student_name session_id callback now).
Local Notation "'passes'" := (pass_result student_id student_name session_id callback now).
Local Notation "'loops'" := (loop_result student_id student_name session_id callback now).

Lemma gate_pass (attempt : nat) (frame : Frame) (face : Face) :
  passes attempt frame (run_gate attempt frame face).
Proof.
  destruct (gate_cases self student_id student_name session_id callback now
              attempt frame face) as [e | | | c Hc | c Hc Hl | c Hc Hl].
  - apply PassQuiet; [constructor | discriminate].
  - apply PassQuiet; [constructor | discriminate].
  - apply PassQuiet; [apply cb_events_plain | discriminate].
  - apply (PassAccepted _ _ _ _ _ _ _ [] c); [constructor | exact Hc].
  - apply PassQuiet; [| discriminate].
    apply Forall_app. split; [apply cb_events_plain | repeat constructor].
  - apply PassQuiet; [apply cb_events_plain | discriminate].
Qed.

Lemma pass_bind (attempt : nat) (frame : Frame) (m : M unit) (k : unit -> M unit) :
  passes attempt frame m -> (forall u, passes attempt frame (k u)) ->
  passes attempt frame (bind m k).
Proof.
  intros Hm Hk. destruct Hm as [ev c Hev Hc | pre conf Hpre Hconf].
  - destruct c as [[] | ok msg | e].
    + rewrite bind_next.
      destruct (Hk tt) as [ev' c' Hev' Hc' | pre' conf' Hpre' Hconf'].
      * apply PassQuiet; [now apply Forall_app | exact Hc'].
      * cbn [fst snd]. rewrite app_assoc.
        apply PassAccepted; [now apply Forall_app | exact Hconf'].
    + rewrite bind_return. now apply PassQuiet.
    + rewrite bind_raise. now apply PassQuiet.
  - rewrite bind_return. now apply PassAccepted.
Qed.

Lemma for_each_pass {A} (attempt : nat) (frame : Frame) (body : A -> M unit)
    (l : list A) :
  (forall a, passes attempt frame (body a)) ->
  passes attempt frame (for_each body l).
Proof.
  intro Hb. induction l as [| a l IH]; cbn [for_each].
  - apply PassQuiet; [constructor | discriminate].
  - apply pass_bind; auto.
Qed.

Lemma pass_ret (attempt : nat) (frame : Frame) : passes attempt frame (ret tt).
Proof. apply PassQuiet; [constructor | discriminate]. Qed.

Lemma faces_loop_pass (attempt : nat) (frame : Frame) (name : string) :
  passes attempt frame (run_faces attempt frame name).
Proof.
  unfold faces_loop. apply for_each_pass. intro face.
  destruct (String.eqb name student_name); [apply gate_pass | apply pass_ret].
Qed.

Lemma names_loop_pass (attempt : nat) (frame : Frame) (names : list string) :
  passes attempt frame (run_names attempt frame names).
Proof.
  unfold names_loop. apply for_each_pass. intro name.
  destruct (String.eqb name student_name); [apply faces_loop_pass | apply pass_ret].
Qed.

Lemma attempts_loop_result (n : nat) :
  forall (first : nat) (c : VideoCapture),
    loops first n (run_attempts first n c).
Proof.
  induction n as [| n IH]; intros first c; cbn [attempts_loop].
  - apply LoopQuiet; [constructor | discriminate].
  - destruct (cap_read c) as [[frame |] c'].
    + rewrite bind_emit.
      destruct (detect_known_faces (recognizer self) frame default_tolerance)
        as [detected | e].
      * rewrite bind_lift_ok.
        destruct (names_loop_pass first frame (snd detected))
          as [ev r Hev Hr | pre conf Hpre Hconf].
        -- destruct r as [[] | ok msg | e].
           ++ rewrite bind_next.
              destruct (IH (S first) c')
                as [ev' r' Hev' Hr' | pre' conf' attempt' frame' Hpre' Hconf' Hatt Hreads];
                cbn [fst snd].
              ** apply LoopQuiet; [| exact Hr'].
                 constructor; [now split |].
                 apply Forall_app. split; [now apply plain_unrecorded | exact Hev'].
              ** rewrite app_comm_cons, app_assoc.
                 apply (LoopAccepted _ _ _ _ _ _ _ _ conf' attempt' frame');
                   [| exact Hconf' | lia |].
                 --- apply Forall_app. split; [| exact Hpre'].
                     constructor; [now split | now apply plain_unrecorded].
                 --- rewrite count_app, Hreads.
                     change (EvRead true :: ev) with ([EvRead true] ++ ev).
                     rewrite count_app.
                     rewrite (count_none is_read ev)
                       by (eapply Forall_impl; [| exact Hev]; now intros ? (? & _)).
                     cbn. lia.
           ++ rewrite bind_return. cbn [fst snd].
              apply LoopQuiet; [| exact Hr].
              constructor; [now split | now apply plain_unrecorded].
           ++ rewrite bind_raise. cbn [fst snd].
              apply LoopQuiet; [| discriminate].
              constructor; [now split | now apply plain_unrecorded].
        -- rewrite bind_return. cbn [fst snd].
           rewrite app_comm_cons.
           apply (LoopAccepted _ _ _ _ _ _ _ _ conf first frame);
             [| exact Hconf | lia |].
           ++ constructor; [now split | now apply plain_unrecorded].
           ++ change (EvRead true :: pre) with ([EvRead true] ++ pre).
              rewrite count_app.
              rewrite (count_none is_read pre)
                by (eapply Forall_impl; [| exact Hpre]; now intros ? (? & _)).
              cbn. lia.
      * rewrite bind_lift_err. cbn [fst snd].
        apply LoopQuiet; [repeat constructor | discriminate].
    + rewrite bind_emit, bind_notify. cbn [fst snd return_].
      apply LoopQuiet; [| discriminate].
      constructor; [now split |]. rewrite app_nil_r.
      apply plain_unrecorded, cb_events_plain.
Qed.

Lemma detect_and_mark_result : loops 0%nat (max_retries self) run.
Proof.
  assert (Hcam : loops 0%nat (max_retries self)
                   (notify callback false msg_camera ;;; return_ false msg_camera)).
  { rewrite bind_notify. cbn [fst snd return_]. rewrite app_nil_r.
    apply LoopQuiet; [apply plain_unrecorded, cb_events_plain | discriminate]. }
  unfold detect_and_mark. destruct (cap self) as [c |]; [| exact Hcam].
  destruct (negb (isOpened c)); [exact Hcam |].
  destruct (attempts_loop_result (max_retries self) 0%nat c)
    as [ev r Hev Hr | pre conf attempt frame Hpre Hconf Hatt Hreads].
  - destruct r as [[] | ok msg | e].
    + rewrite bind_next, bind_notify. cbn [fst snd return_]. rewrite app_nil_r.
      apply LoopQuiet; [| discriminate].
      apply Forall_app. split; [exact Hev | apply plain_unrecorded, cb_events_plain].
    + rewrite bind_return. now apply LoopQuiet.
    + rewrite bind_raise. now apply LoopQuiet.
  - rewrite bind_return. now apply (LoopAccepted _ _ _ _ _ _ _ _ conf attempt frame).
Qed.
End Engine.

(** ** Strings *)

Lemma string_app_assoc (a b c : string) :
  ((a ++ b) ++ c)%string = (a ++ b ++ c)%string.
Proof. induction a as [| x a IH]; simpl; [reflexivity | now rewrite IH]. Qed.

Lemma contains_here (pre sub post : string) :
  Contains sub (pre ++ sub ++ post)%string.
Proof. now exists pre, post. Qed.

Lemma contains_after (a sub s : string) :
  Contains sub s -> Contains sub (a ++ s)%string.
Proof.
  intros (pre & post & ->). exists (a ++ pre)%string, post.
  now rewrite string_app_assoc.
Qed.

Lemma msg_success_shows (name : string) (c : Z) (attempt : nat) :
  Contains (str_Z c) (msg_success name c attempt) /\
  Contains (str_nat (attempt + 1)) (msg_success name c attempt).
Proof.
  unfold msg_success. split.
  - do 2 apply contains_after. apply contains_here.
  - do 4 apply contains_after. apply contains_here.
Qed.

Lemma msg_low_shows (c : Z) :
  Contains (str_Z c) (msg_low c) /\
  Contains "50" (msg_low c) /\
  Contains "No more retries" (msg_low c).
Proof.
  unfold msg_low. repeat split.
  - apply contains_here.
  - do 2 apply contains_after.
    change (str_Z min_confidence) with "50".
    apply contains_here.
  - do 3 apply contains_after.
    change (str_Z min_confidence ++ "%. No more retries.")%string
      with ("50%. " ++ "No more retries" ++ ".")%string.
    apply contains_here.
Qed.

Lemma msg_pose_shows (attempt max : nat) :
  Contains (str_nat (attempt + 1)) (msg_pose attempt max) /\
  Contains (str_nat max) (msg_pose attempt max).
Proof.
  unfold msg_pose. split.
  - apply contains_here.
  - do 2 apply contains_after. apply contains_here.
Qed.

Lemma msg_retry_shows (c : Z) (attempt max : nat) :
  Contains (str_Z c) (msg_retry c attempt max) /\
  Contains (str_nat (attempt + 2)) (msg_retry c attempt max) /\
  Contains (str_nat max) (msg_retry c attempt max).
Proof.
  unfold msg_retry. repeat split.
  - apply contains_here.
  - do 2 apply contains_after. apply contains_here.
  - do 4 apply contains_after. apply contains_here.
Qed.

(** ** More laws of the trace monad *)

Lemma bind_ret_r (m : M unit) : bind m (fun _ => ret tt) = m.
Proof.
  destruct m as [ev [[] | ok msg | e]]; unfold bind, ret; cbn;
    [now rewrite app_nil_r | reflexivity | reflexivity].
Qed.

Lemma bind_assoc {A B C} (m : M A) (k : A -> M B) (h : B -> M C) :
  bind (bind m k) h = bind m (fun a => bind (k a) h).
Proof.
  destruct m as [ev [a | ok msg | e]]; [| reflexivity | reflexivity].
  rewrite !bind_next.
  destruct (k a) as [ev' [b | ok msg | e]]; cbn [fst snd].
  - rewrite !bind_next. cbn [fst snd]. now rewrite app_assoc.
  - now rewrite !bind_return.
  - now rewrite !bind_raise.
Qed.

(** ** One gate evaluation, case by case *)

Section GateSteps.
Variable self : AttendanceManager.
Variables student_id student_name : string.
Variable session_id : option string.
Variable callback : bool.
Variable now : string.

Local Notation "'run_gate'" := (gate self student_id student_name session_id callback now).
Local Notation "'run_faces'" := (faces_loop self student_id student_name session_id callback now).
Local Notation "'run_names'" := (names_loop self student_id student_name session_id callback now).
Local Notation "'run_attempts'" := (attempts_loop self student_id student_name session_id callback now).

Lemma gate_no_landmarks (attempt : nat) (frame : Frame) (face : Face) (c : Z) :
  scored self face c -> landmarks face = [] ->
  run_gate attempt frame face = ([], Next tt).
Proof.
  intros (d & Hd & Hc) Hl. unfold gate.
  now rewrite Hd, bind_lift_ok, Hc, bind_lift_ok, Hl.
Qed.

Lemma gate_pose (attempt : nat) (frame : Frame) (face : Face) (c : Z) :
  scored self face c -> eyes_short face ->
  run_gate attempt frame face
  = (cb_events callback false (msg_pose attempt (max_retries self)), Next tt).
Proof.
  intros (d & Hd & Hc) (lm & rest & l & Hl & Hleft & Hshort). unfold gate.
  rewrite Hd, bind_lift_ok, Hc, bind_lift_ok, Hl, Hleft, bind_lift_ok.
  destruct (List.length l <? 6)%nat eqn:E; [apply notify_events |].
  apply Nat.ltb_ge in E.
  destruct Hshort as [Hs | (r & Hright & Hs)]; [lia |].
  rewrite Hright, bind_lift_ok.
  apply Nat.ltb_lt in Hs. rewrite Hs. apply notify_events.
Qed.

Lemma gate_confidence (attempt : nat) (frame : Frame) (face : Face) (c : Z) :
  scored self face c -> eyes_visible face ->
  run_gate attempt frame face
  = if 50 <=? c
    then ([EvImwrite (photo_path student_id now) frame;
           EvMark student_id student_name session_id (photo_path student_id now) c]
          ++ cb_events callback true (msg_success student_name c attempt),
          Return true (msg_success student_name c attempt))
    else if (attempt <? max_retries self - 1)%nat
    then (cb_events callback false (msg_retry c attempt (max_retries self))
          ++ [EvSleep 1], Next tt)
    else (cb_events callback false (msg_low c), Return false (msg_low c)).
Proof.
  intros (d & Hd & Hc) (lm & rest & l & r & Hl & Hleft & Hright & H6l & H6r).
  unfold gate.
  rewrite Hd, bind_lift_ok, Hc, bind_lift_ok, Hl, Hleft, bind_lift_ok.
  apply Nat.ltb_ge in H6l, H6r. rewrite H6l, Hright, bind_lift_ok, H6r.
  unfold min_confidence. destruct (50 <=? c).
  - rewrite !bind_emit, bind_notify. cbn [fst snd return_].
    now rewrite app_nil_r.
  - destruct (attempt <? max_retries self - 1)%nat.
    + now rewrite bind_notify.
    + rewrite bind_notify. cbn [fst snd return_]. now rewrite app_nil_r.
Qed.

(** The inner guard repeats the outer test: once a label has matched, every
    face of the frame is gated, in order, whatever its own label. *)
Lemma faces_loop_all (attempt : nat) (frame : Frame) :
  run_faces attempt frame student_name
  = for_each (run_gate attempt frame) frame.
Proof.
  unfold faces_loop. rewrite String.eqb_refl.
  generalize frame at 2 4. intro l.
  induction l as [| f l IH]; cbn [for_each]; [reflexivity | now rewrite IH].
Qed.

Lemma names_loop_first_match (attempt : nat) (frame : Frame)
    (before after : list string) :
  ~ In student_name before ->
  run_names attempt frame (before ++ student_name :: after)
  = (for_each (run_gate attempt frame) frame ;;; run_names attempt frame after).
Proof.
  intro Hb. induction before as [| n before IH]; cbn [app].
  - unfold names_loop at 1. cbn [for_each]. rewrite String.eqb_refl.
    now rewrite faces_loop_all.
  - unfold names_loop at 1. cbn [for_each].
    destruct (String.eqb_spec n student_name) as [E | E].
    + exfalso. apply Hb. now left.
    + rewrite bind_ret. apply IH. intro H. apply Hb. now right.
Qed.

(** One attempt on a frame that shows a single face carrying the claimed
    label: read, gate that face once, go on. *)
Lemma attempt_sole_claimant (attempt n : nat) (c c' : VideoCapture)
    (frame : Frame) (face : Face) :
  cap_read c = (Some frame, c') ->
  sole_claimant self student_name frame face ->
  run_attempts attempt (S n) c
  = (emit (EvRead true) ;;; run_gate attempt frame face ;;;
     run_attempts (S attempt) n c').
Proof.
  intros Hread (Hframe & Hlabel). subst frame.
  cbn [attempts_loop]. rewrite Hread.
  unfold detect_known_faces. cbn [res_map map]. rewrite Hlabel.
  cbn [res_bind]. rewrite bind_lift_ok. cbn [snd].
  pose proof (names_loop_first_match attempt [face] [] [] (fun H => H)) as Hn.
  cbn [app] in Hn. rewrite Hn.
  cbn [for_each]. unfold names_loop at 1. cbn [for_each].
  now rewrite !bind_ret_r.
Qed.
End GateSteps.

(** ** Whole runs of [detect_and_mark] *)


(** A successful call ends right after its record: the trace is a prefix
    without any record, the evidence image, the [mark_attendance] call and
    the success notification; the confidence recorded is between 50 and 100,
    the attempt number is the number of frames read so far, and the message
    returned shows both. *)
Theorem success_reports_record (self : AttendanceManager)
    (student_id student_name : string) (session_id : option string)
    (callback : bool) (now : string) (msg : string) :
  snd (detect_and_mark self student_id student_name session_id callback now)
  = Return true msg ->
  exists (pre : list event) (conf : Z) (attempt : nat) (frame : Frame),
    fst (detect_and_mark self student_id student_name session_id callback now)
    = pre ++ [EvImwrite (photo_path student_id now) frame;
              EvMark student_id student_name session_id
                     (photo_path student_id now) conf]
          ++ cb_events callback true msg /\
    msg = msg_success student_name conf attempt /\
    50 <= conf <= 100 /\
    (attempt < max_retries self)%nat /\
    count is_read pre = (attempt + 1)%nat /\
    Forall unrecorded pre /\
    Contains (str_Z conf) msg /\ Contains (str_nat (attempt + 1)) msg.
Proof.
  destruct (detect_and_mark_result self student_id student_name session_id callback now)
    as [ev c Hev Hc | pre conf attempt frame Hpre Hconf Hatt Hreads]; cbn [fst snd].
  - intro H. now destruct (Hc msg).
  - intro H. inversion H; subst msg.
    exists pre, conf, attempt, frame.
    repeat split; try lia; auto; try apply msg_success_shows.
Qed.

Lemma success_reports_record_witness :
  let feed := [Some [Sample.mkface (Sample.probe_at 1 2) [Sample.eyes5]];
               Some [Sample.face_at 1 2]] in
  let msg := msg_success "alice" 50 1 in
  snd (detect_and_mark (Sample.manager feed) "42" "alice" None true "20260101_090000")
  = Return true msg /\
  exists (pre : list event) (conf : Z) (attempt : nat) (frame : Frame),
    fst (detect_and_mark (Sample.manager feed) "42" "alice" None true "20260101_090000")
    = pre ++ [EvImwrite (photo_path "42" "20260101_090000") frame;
              EvMark "42" "alice" None (photo_path "42" "20260101_090000") conf]
          ++ cb_events true true msg /\
    msg = msg_success "alice" conf attempt /\
    50 <= conf <= 100 /\
    (attempt < max_retries (Sample.manager feed))%nat /\
    count is_read pre = (attempt + 1)%nat /\
    Forall unrecorded pre /\
    Contains (str_Z conf) msg /\ Contains (str_nat (attempt + 1)) msg.
Proof.
  cbv zeta. split; [reflexivity |].
  apply (success_reports_record
           (Sample.manager [Some [Sample.mkface (Sample.probe_at 1 2) [Sample.eyes5]];
                            Some [Sample.face_at 1 2]])
           "42" "alice" None true "20260101_090000" (msg_success "alice" 50 1)).
  reflexivity.
Defined.

(** For a face whose landmarks show both eyes with at least six points, the
    gate accepts exactly when the confidence is at least 50 (50 itself is
    accepted): then it writes the evidence, calls [mark_attendance] and
    returns success; below 50 it records nothing and either waits one second
    (attempts remain) or returns the low-confidence failure. *)
Theorem gate_threshold (self : AttendanceManager)
    (student_id student_name : string) (session_id : option string)
    (callback : bool) (now : string)
    (attempt : nat) (frame : Frame) (face : Face) (c : Z) :
  scored self face c -> eyes_visible face ->
  let r := gate self student_id student_name session_id callback now attempt frame face in
  (50 <= c <-> snd r = Return true (msg_success student_name c attempt)) /\
  (50 <= c -> count is_mark (fst r) = 1%nat /\ count is_imwrite (fst r) = 1%nat /\
              count is_sleep (fst r) = 0%nat) /\
  (c < 50 -> count is_mark (fst r) = 0%nat /\ count is_imwrite (fst r) = 0%nat /\
             (snd r = Next tt \/ snd r = Return false (msg_low c))).
Proof.
  intros Hs He. cbv zeta.
  rewrite (gate_confidence self student_id student_name session_id callback now
             attempt frame face c Hs He).
  destruct (50 <=? c) eqn:E.
  - apply Z.leb_le in E. cbn [fst snd].
    split; [tauto |]. split; [| lia]. intros _.
    unfold count. destruct callback; cbn; auto.
  - apply Z.leb_gt in E.
    destruct (attempt <? max_retries self - 1)%nat; cbn [fst snd].
    + split; [split; [lia | discriminate] |]. split; [lia |]. intros _.
      unfold count. destruct callback; cbn; auto.
    + split; [split; [lia | discriminate] |]. split; [lia |]. intros _.
      unfold count. destruct callback; cbn; auto.
Qed.

Lemma sample_eyes_visible (e : encoding) : eyes_visible (Sample.mkface e [Sample.eyes6]).
Proof.
  exists Sample.eyes6, [], (repeat (0, 0) 6), (repeat (0, 0) 6).
  repeat split; simpl; lia.
Qed.

Lemma sample_scored (feed : list (option Frame)) (n d : Z) (lm : list landmark_dict)
    (dist : float) (c : Z) :
  best_distance Sample.gallery (Sample.probe_at n d) = Ok dist ->
  confidence_of dist = Ok c ->
  scored (Sample.manager feed) (Sample.mkface (Sample.probe_at n d) lm) c.
Proof. intros H1 H2. exists dist. split; assumption. Qed.

Lemma gate_threshold_witness :
  let self := Sample.manager [] in
  let face := Sample.face_at 1 2 in
  scored self face 50 /\ eyes_visible face /\
  let r := gate self "42" "alice" None true "20260101_090000" 0 [face] face in
  (50 <= 50 <-> snd r = Return true (msg_success "alice" 50 0)) /\
  (50 <= 50 -> count is_mark (fst r) = 1%nat /\ count is_imwrite (fst r) = 1%nat /\
               count is_sleep (fst r) = 0%nat) /\
  (50 < 50 -> count is_mark (fst r) = 0%nat /\ count is_imwrite (fst r) = 0%nat /\
              (snd r = Next tt \/ snd r = Return false (msg_low 50))).
Proof.
  cbv zeta.
  assert (Hs : scored (Sample.manager []) (Sample.face_at 1 2) 50)
    by (apply (sample_scored [] 1 2 _ (float_of_frac 1 2)); reflexivity).
  assert (He : eyes_visible (Sample.face_at 1 2)) by apply sample_eyes_visible.
  split; [exact Hs |]. split; [exact He |].
  exact (gate_threshold (Sample.manager []) "42" "alice" None true "20260101_090000"
           0 [Sample.face_at 1 2] (Sample.face_at 1 2) 50 Hs He).
Defined.

(** An attempt on a frame with exactly one face, labelled with the claimed
    identity, eyes visible and confidence below 50: while attempts remain,
    the engine notifies the observer, sleeps exactly one second and runs the
    next attempt; on the last attempt it returns the low-confidence failure,
    whose message shows the confidence, the minimum 50 and that no retries
    remain. *)
Theorem low_confidence_attempt (self : AttendanceManager)
    (student_id student_name : string) (session_id : option string)
    (callback : bool) (now : string)
    (attempt n : nat) (c c' : VideoCapture) (frame : Frame) (face : Face) (conf : Z) :
  (attempt + S n = max_retries self)%nat ->
  cap_read c = (Some frame, c') ->
  sole_claimant self student_name frame face ->
  scored self face conf -> eyes_visible face -> conf < 50 ->
  let loop := attempts_loop self student_id student_name session_id callback now in
  ((0 < n)%nat ->
   loop attempt (S n) c
   = (EvRead true :: cb_events callback false (msg_retry conf attempt (max_retries self))
        ++ EvSleep 1 :: fst (loop (S attempt) n c'),
      snd (loop (S attempt) n c'))) /\
  (n = 0%nat ->
   loop attempt (S n) c
   = (EvRead true :: cb_events callback false (msg_low conf),
      Return false (msg_low conf))) /\
  Contains (str_Z conf) (msg_low conf) /\ Contains "50" (msg_low conf) /\
  Contains "No more retries" (msg_low conf).
Proof.
  intros Hbudget Hread Hsole Hs He Hlow. cbv zeta.
  rewrite (attempt_sole_claimant self student_id student_name session_id callback now
             attempt n c c' frame face Hread Hsole).
  rewrite (gate_confidence self student_id student_name session_id callback now
             attempt frame face conf Hs He).
  apply Z.leb_gt in Hlow. rewrite Hlow.
  split; [| split; [| apply msg_low_shows]].
  - intro Hn.
    assert (E : (attempt <? max_retries self - 1)%nat = true)
      by (apply Nat.ltb_lt; lia).
    rewrite E, bind_emit, bind_next. cbn [fst snd].
    now rewrite <- app_assoc.
  - intro Hn.
    assert (E : (attempt <? max_retries self - 1)%nat = false)
      by (apply Nat.ltb_ge; lia).
    now rewrite E, bind_emit, bind_return.
Qed.

Lemma low_confidence_attempt_witness :
  let face := Sample.face_at 9 16 in
  let self := Sample.manager [Some [face]; None] in
  let c := {| isOpened := true; pending := [Some [face]; None] |} in
  let c' := {| isOpened := true; pending := [None] |} in
  let loop := attempts_loop self "42" "alice" None true "20260101_090000" in
  ((0 < 2)%nat ->
   loop 0%nat 3%nat c
   = (EvRead true :: cb_events true false (msg_retry 43 0 (max_retries self))
        ++ EvSleep 1 :: fst (loop 1%nat 2%nat c'),
      snd (loop 1%nat 2%nat c'))) /\
  (2%nat = 0%nat ->
   loop 0%nat 3%nat c
   = (EvRead true :: cb_events true false (msg_low 43), Return false (msg_low 43))) /\
  Contains (str_Z 43) (msg_low 43) /\ Contains "50" (msg_low 43) /\
  Contains "No more retries" (msg_low 43).
Proof.
  cbv zeta.
  apply (low_confidence_attempt
           (Sample.manager [Some [Sample.face_at 9 16]; None])
           "42" "alice" None true "20260101_090000" 0 2
           {| isOpened := true; pending := [Some [Sample.face_at 9 16]; None] |}
           {| isOpened := true; pending := [None] |}
           [Sample.face_at 9 16] (Sample.face_at 9 16) 43).
  - reflexivity.
  - reflexivity.
  - split; reflexivity.
  - apply (sample_scored _ 9 16 _ (float_of_frac 9 16)); reflexivity.
  - apply sample_eyes_visible.
  - lia.
Defined.

(** An attempt on a frame with exactly one face, labelled with the claimed
    identity and scored without error: when the landmark detector returns
    nothing the face is skipped without any notification; when an eye group
    has fewer than six points the observer gets the pose message, which
    shows the attempt number and the retry budget.  Either way nothing is
    recorded, the engine does not sleep, and the next attempt runs. *)
Theorem pose_invalid_attempt (self : AttendanceManager)
    (student_id student_name : string) (session_id : option string)
    (callback : bool) (now : string)
    (attempt n : nat) (c c' : VideoCapture) (frame : Frame) (face : Face) (conf : Z) :
  cap_read c = (Some frame, c') ->
  sole_claimant self student_name frame face ->
  scored self face conf ->
  let loop := attempts_loop self student_id student_name session_id callback now in
  (landmarks face = [] ->
   loop attempt (S n) c
   = (EvRead true :: fst (loop (S attempt) n c'), snd (loop (S attempt) n c'))) /\
  (eyes_short face ->
   loop attempt (S n) c
   = (EvRead true :: cb_events callback false (msg_pose attempt (max_retries self))
        ++ fst (loop (S attempt) n c'),
      snd (loop (S attempt) n c'))) /\
  Contains (str_nat (attempt + 1)) (msg_pose attempt (max_retries self)) /\
  Contains (str_nat (max_retries self)) (msg_pose attempt (max_retries self)).
Proof.
  intros Hread Hsole Hs. cbv zeta.
  rewrite (attempt_sole_claimant self student_id student_name session_id callback now
             attempt n c c' frame face Hread Hsole).
  split; [| split; [| apply msg_pose_shows]].
  - intro Hl.
    rewrite (gate_no_landmarks self student_id student_name session_id callback now
               attempt frame face conf Hs Hl).
    now rewrite bind_emit, bind_next.
  - intro Hshort.
    rewrite (gate_pose self student_id student_name session_id callback now
               attempt frame face conf Hs Hshort).
    now rewrite bind_emit, bind_next.
Qed.

Lemma pose_invalid_attempt_witness :
  let face := Sample.mkface (Sample.probe_at 1 16) [Sample.eyes5] in
  let self := Sample.manager [Some [face]; None] in
  let c := {| isOpened := true; pending := [Some [face]; None] |} in
  let c' := {| isOpened := true; pending := [None] |} in
  let loop := attempts_loop self "42" "alice" None true "20260101_090000" in
  eyes_short face /\
  (landmarks face = [] ->
   loop 0%nat 3%nat c
   = (EvRead true :: fst (loop 1%nat 2%nat c'), snd (loop 1%nat 2%nat c'))) /\
  (eyes_short face ->
   loop 0%nat 3%nat c
   = (EvRead true :: cb_events true false (msg_pose 0 (max_retries self))
        ++ fst (loop 1%nat 2%nat c'),
      snd (loop 1%nat 2%nat c'))) /\
  Contains (str_nat (0 + 1)) (msg_pose 0 (max_retries self)) /\
  Contains (str_nat (max_retries self)) (msg_pose 0 (max_retries self)).
Proof.
  cbv zeta. split.
  - exists Sample.eyes5, [], (repeat (0, 0) 5).
    repeat split. left. simpl. lia.
  - apply (pose_invalid_attempt
             (Sample.manager [Some [Sample.mkface (Sample.probe_at 1 16) [Sample.eyes5]]; None])
             "42" "alice" None true "20260101_090000" 0 2
             {| isOpened := true;
                pending := [Some [Sample.mkface (Sample.probe_at 1 16) [Sample.eyes5]]; None] |}
             {| isOpened := true; pending := [None] |}
             [Sample.mkface (Sample.probe_at 1 16) [Sample.eyes5]]
             (Sample.mkface (Sample.probe_at 1 16) [Sample.eyes5]) 93).
    + reflexivity.
    + split; reflexivity.
    + apply (sample_scored _ 1 16 _ (float_of_frac 1 16)); reflexivity.
Defined.

Lemma no_camera_run (self : AttendanceManager)
    (student_id student_name : string) (session_id : option string)
    (callback : bool) (now : string) :
  (cap self = None \/ exists c, cap self = Some c /\ isOpened c = false) ->
  detect_and_mark self student_id student_name session_id callback now
  = (cb_events callback false msg_camera, Return false msg_camera).
Proof.
  intros [H | (c & H & Hc)]; unfold detect_and_mark; rewrite H; [| rewrite Hc; cbn [negb]];
    rewrite bind_notify; cbn [fst snd return_]; now rewrite app_nil_r.
Qed.

(** Without an opened camera the call reads no frame and returns at once
    with "Camera not started.". *)
Theorem camera_not_started (self : AttendanceManager)
    (student_id student_name : string) (session_id : option string)
    (callback : bool) (now : string) :
  (cap self = None \/ exists c, cap self = Some c /\ isOpened c = false) ->
  detect_and_mark self student_id student_name session_id callback now
  = (cb_events callback false msg_camera, Return false msg_camera).
Proof. apply no_camera_run. Qed.

Lemma camera_not_started_witness :
  let self := {| recognizer := Sample.gallery;
                 cap := Some {| isOpened := false; pending := [Some []] |};
                 max_retries := 3 |} in
  (cap self = None \/ exists c, cap self = Some c /\ isOpened c = false) /\
  detect_and_mark self "42" "alice" None true "20260101_090000"
  = (cb_events true false msg_camera, Return false msg_camera).
Proof.
  cbv zeta.
  assert (H : cap {| recognizer := Sample.gallery;
                     cap := Some {| isOpened := false; pending := [Some []] |};
                     max_retries := 3 |} = None \/
              exists c, cap {| recognizer := Sample.gallery;
                               cap := Some {| isOpened := false; pending := [Some []] |};
                               max_retries := 3 |} = Some c /\ isOpened c = false).
  { right. eexists. split; reflexivity. }
  split; [exact H |].
  exact (camera_not_started _ "42" "alice" None true "20260101_090000" H).
Defined.

Section Capture.
Variable self : AttendanceManager.
Variables student_id student_name : string.
Variable session_id : option string.
Variable callback : bool.
Variable now : string.

Local Notation "'run_names'" := (names_loop self student_id student_name session_id callback now).
Local Notation "'run_attempts'" := (attempts_loop self student_id student_name session_id callback now).
Local Notation "'run'" := (detect_and_mark self student_id student_name session_id callback now).

Lemma names_loop_no_read (attempt : nat) (frame : Frame) (names : list string) :
  Forall (fun e => is_read e = false) (fst (run_names attempt frame names)).
Proof.
  destruct (names_loop_pass self student_id student_name session_id callback now
              attempt frame names) as [ev c Hev _ | pre conf Hpre _]; cbn [fst].
  - eapply Forall_impl; [| exact Hev]. now intros ? (? & _).
  - apply Forall_app. split.
    + eapply Forall_impl; [| exact Hpre]. now intros ? (? & _).
    + apply Forall_app. split; [repeat constructor |].
      destruct callback; repeat constructor.
Qed.

Lemma no_read_not_in (ev : list event) (b : bool) :
  Forall (fun e => is_read e = false) ev -> ~ In (EvRead b) ev.
Proof.
  intros H Hin. rewrite Forall_forall in H. specialize (H _ Hin). discriminate.
Qed.

Lemma cb_events_no_read (ok : bool) (msg : string) (b : bool) :
  ~ In (EvRead b) (cb_events callback ok msg).
Proof. destruct callback; simpl; [intros [H | []]; discriminate | tauto]. Qed.

Lemma attempts_loop_capture (n : nat) :
  forall (first : nat) (c : VideoCapture),
    In (EvRead false) (fst (run_attempts first n c)) ->
    snd (run_attempts first n c) = Return false msg_capture /\
    exists pre,
      fst (run_attempts first n c)
      = pre ++ EvRead false :: cb_events callback false msg_capture /\
      ~ In (EvRead false) pre.
Proof.
  induction n as [| n IH]; intros first c; cbn [attempts_loop].
  - intros [].
  - destruct (cap_read c) as [[frame |] c'].
    + rewrite bind_emit.
      destruct (detect_known_faces (recognizer self) frame default_tolerance)
        as [detected | e]; [rewrite bind_lift_ok | rewrite bind_lift_err].
      * pose proof (names_loop_no_read first frame (snd detected)) as Hnr.
        destruct (run_names first frame (snd detected)) as [ev [[] | ok msg | e]];
          cbn [fst] in Hnr.
        -- rewrite bind_next. cbn [fst snd].
           intros [H | H]; [discriminate |].
           apply in_app_or in H. destruct H as [H | H];
             [now apply no_read_not_in in H |].
           destruct (IH (S first) c' H) as (Hout & pre & Hev & Hpre).
           split; [exact Hout |].
           exists (EvRead true :: ev ++ pre). split.
           ++ rewrite Hev. cbn [app]. now rewrite app_assoc.
           ++ intros [Hin | Hin]; [discriminate |].
              apply in_app_or in Hin. destruct Hin as [Hin | Hin]; auto.
              now apply no_read_not_in in Hin.
        -- rewrite bind_return. cbn [fst snd].
           intros [H | H]; [discriminate | now apply no_read_not_in in H].
        -- rewrite bind_raise. cbn [fst snd].
           intros [H | H]; [discriminate | now apply no_read_not_in in H].
      * cbn [fst snd]. intros [H | []]. discriminate.
    + rewrite bind_emit, bind_notify. cbn [fst snd return_].
      rewrite app_nil_r. intros _. split; [reflexivity |].
      exists []. split; [reflexivity | tauto].
Qed.

(** As soon as a frame read fails the call is over: it returns the
    capture failure, the failed read is followed only by its notification
    (no further read, no evaluation), and every read before it succeeded.
    The capture message differs from the messages of the other failures. *)
Theorem capture_failure_is_terminal :
  In (EvRead false) (fst run) ->
  snd run = Return false msg_capture /\
  (exists pre,
     fst run = pre ++ EvRead false :: cb_events callback false msg_capture /\
     ~ In (EvRead false) pre) /\
  msg_capture <> msg_not_recognized /\ msg_capture <> msg_camera /\
  (forall c, msg_capture <> msg_low c).
Proof.
  intro Hin.
  assert (Hmsgs : msg_capture <> msg_not_recognized /\ msg_capture <> msg_camera /\
                  (forall c, msg_capture <> msg_low c)).
  { repeat split; discriminate. }
  revert Hin. unfold detect_and_mark.
  destruct (cap self) as [c |].
  - destruct (negb (isOpened c)).
    + rewrite bind_notify. cbn [fst snd return_]. rewrite app_nil_r.
      intro H. now apply cb_events_no_read in H.
    + pose proof (attempts_loop_capture (max_retries self) 0%nat c) as Hloop.
      destruct (run_attempts 0%nat (max_retries self) c) as [ev [[] | ok msg | e]];
        cbn [fst snd] in Hloop.
      * rewrite bind_next, bind_notify. cbn [fst snd return_]. rewrite app_nil_r.
        intro H. apply in_app_or in H. destruct H as [H | H].
        -- destruct (Hloop H) as (Hout & _). discriminate.
        -- now apply cb_events_no_read in H.
      * rewrite bind_return. cbn [fst snd]. intro H.
        destruct (Hloop H) as (Hout & Hpre). auto.
      * rewrite bind_raise. cbn [fst snd]. intro H.
        destruct (Hloop H) as (Hout & _). discriminate.
  - rewrite bind_notify. cbn [fst snd return_]. rewrite app_nil_r.
    intro H. now apply cb_events_no_read in H.
Qed.

Lemma attempts_loop_reads (n : nat) :
  forall (first : nat) (c : VideoCapture),
    (count is_read (fst (run_attempts first n c)) <= n)%nat.
Proof.
  induction n as [| n IH]; intros first c; cbn [attempts_loop]; [cbn; lia |].
  destruct (cap_read c) as [[frame |] c'].
  - rewrite bind_emit.
    destruct (detect_known_faces (recognizer self) frame default_tolerance)
      as [detected | e]; [rewrite bind_lift_ok | rewrite bind_lift_err; cbn; lia].
    pose proof (names_loop_no_read first frame (snd detected)) as Hnr.
    apply count_none in Hnr.
    destruct (run_names first frame (snd detected)) as [ev [[] | ok msg | e]];
      cbn [fst] in Hnr.
    + rewrite bind_next. cbn [fst snd].
      change (EvRead true :: ev ++ ?t) with ([EvRead true] ++ ev ++ t).
      rewrite !count_app, Hnr. specialize (IH (S first) c'). cbn. lia.
    + rewrite bind_return. cbn [fst snd].
      change (EvRead true :: ev) with ([EvRead true] ++ ev).
      rewrite count_app, Hnr. cbn. lia.
    + rewrite bind_raise. cbn [fst snd].
      change (EvRead true :: ev) with ([EvRead true] ++ ev).
      rewrite count_app, Hnr. cbn. lia.
  - rewrite bind_emit, bind_notify. cbn [fst snd return_]. rewrite app_nil_r.
    change (EvRead false :: ?t) with ([EvRead false] ++ t).
    rewrite count_app, (count_none is_read (cb_events _ _ _))
      by (destruct callback; repeat constructor).
    cbn. lia.
Qed.

(** No call reads more than [max_retries] frames. *)
Theorem reads_within_budget : (count is_read (fst run) <= max_retries self)%nat.
Proof.
  assert (Hcb : forall ok msg, count is_read (cb_events callback ok msg) = 0%nat)
    by (intros; destruct callback; reflexivity).
  unfold detect_and_mark. destruct (cap self) as [c |].
  - destruct (negb (isOpened c)).
    + rewrite bind_notify. cbn [fst snd return_]. rewrite app_nil_r, Hcb. lia.
    + pose proof (attempts_loop_reads (max_retries self) 0%nat c) as Hloop.
      destruct (run_attempts 0%nat (max_retries self) c) as [ev [[] | ok msg | e]];
        cbn [fst] in Hloop.
      * rewrite bind_next, bind_notify. cbn [fst snd return_].
        rewrite app_nil_r, count_app, Hcb. lia.
      * now rewrite bind_return.
      * now rewrite bind_raise.
  - rewrite bind_notify. cbn [fst snd return_]. rewrite app_nil_r, Hcb. lia.
Qed.
End Capture.

Lemma capture_failure_is_terminal_witness :
  let self := Sample.manager [Some [Sample.face_at 3 4]; None; Some [Sample.face_at 1 16]] in
  let r := detect_and_mark self "42" "alice" None true "20260101_090000" in
  In (EvRead false) (fst r) /\
  snd r = Return false msg_capture /\
  (exists pre,
     fst r = pre ++ EvRead false :: cb_events true false msg_capture /\
     ~ In (EvRead false) pre) /\
  msg_capture <> msg_not_recognized /\ msg_capture <> msg_camera /\
  (forall c, msg_capture <> msg_low c).
Proof.
  cbv zeta.
  assert (H : In (EvRead false)
                (fst (detect_and_mark
                        (Sample.manager [Some [Sample.face_at 3 4]; None;
                                         Some [Sample.face_at 1 16]])
                        "42" "alice" None true "20260101_090000")))
    by (vm_compute; tauto).
  split; [exact H |].
  exact (capture_failure_is_terminal _ "42" "alice" None true "20260101_090000" H).
Defined.

(** ** The observer callback *)

Lemma notified_bind {A B} (callback : bool) (m : M A) (k : A -> M B) :
  notified callback m -> (forall a, notified callback (k a)) ->
  notified callback (bind m k).
Proof.
  intros Hm Hk ok msg. destruct m as [ev [a | ok' msg' | e]].
  - rewrite bind_next. cbn [fst snd]. intro H.
    destruct (Hk a ok msg H) as (pre & Hpre).
    exists (ev ++ pre). now rewrite Hpre, app_assoc.
  - rewrite bind_return. cbn [fst snd]. intro H. inversion H; subst.
    exact (Hm ok msg eq_refl).
  - rewrite bind_raise. discriminate.
Qed.

Lemma notified_next {A} (callback : bool) (ev : list event) (a : A) :
  notified callback (ev, Next a).
Proof. intros ok msg H. discriminate. Qed.

Lemma notified_raise {A} (callback : bool) (ev : list event) (e : exn) :
  notified callback ((ev, Raise e) : M A).
Proof. intros ok msg H. discriminate. Qed.

Lemma for_each_notified {A} (callback : bool) (body : A -> M unit) (l : list A) :
  (forall a, notified callback (body a)) -> notified callback (for_each body l).
Proof.
  intro Hb. induction l as [| a l IH]; cbn [for_each].
  - apply notified_next.
  - apply notified_bind; auto.
Qed.

Lemma strip_app (a b : list event) : strip (a ++ b) = strip a ++ strip b.
Proof. apply filter_app. Qed.

Lemma strip_cb_events (callback ok : bool) (msg : string) :
  strip (cb_events callback ok msg) = [].
Proof. now destruct callback. Qed.

Lemma muted_bind {A B} (m1 m2 : M A) (k1 k2 : A -> M B) :
  muted m1 m2 -> (forall a, muted (k1 a) (k2 a)) -> muted (bind m1 k1) (bind m2 k2).
Proof.
  intros [Hs Hf] Hk. destruct m1 as [ev1 c1], m2 as [ev2 c2].
  cbn [fst snd] in Hs, Hf. subst c2 ev2.
  destruct c1 as [a | ok msg | e].
  - rewrite !bind_next. destruct (Hk a) as [Hs' Hf'].
    split; cbn [fst snd]; [exact Hs' | now rewrite strip_app, Hf'].
  - rewrite !bind_return. now split.
  - rewrite !bind_raise. now split.
Qed.

Lemma muted_refl_quiet {A} (ev : list event) (c : ctl A) :
  strip ev = ev -> muted (ev, c) (ev, c).
Proof. intro H. split; cbn [fst snd]; congruence. Qed.

Lemma for_each_muted {A} (body1 body2 : A -> M unit) (l : list A) :
  (forall a, muted (body1 a) (body2 a)) ->
  muted (for_each body1 l) (for_each body2 l).
Proof.
  intro Hb. induction l as [| a l IH]; cbn [for_each].
  - now apply muted_refl_quiet.
  - apply muted_bind; auto.
Qed.

Section Observer.
Variable self : AttendanceManager.
Variables student_id student_name : string.
Variable session_id : option string.
Variable now : string.

Lemma gate_notified (callback : bool) (attempt : nat) (frame : Frame) (face : Face) :
  notified callback
    (gate self student_id student_name session_id callback now attempt frame face).
Proof.
  destruct (gate_cases self student_id student_name session_id callback now
              attempt frame face) as [e | | | c Hc | c Hc Hl | c Hc Hl];
    intros ok msg H; try discriminate; cbn [fst snd] in *;
    inversion H; subst; eauto.
  now exists [].
Qed.

Lemma names_loop_notified (callback : bool) (attempt : nat) (frame : Frame)
    (names : list string) :
  notified callback
    (names_loop self student_id student_name session_id callback now attempt frame names).
Proof.
  unfold names_loop. apply for_each_notified. intro name.
  destruct (String.eqb name student_name); [| apply notified_next].
  unfold faces_loop. apply for_each_notified. intro face.
  destruct (String.eqb name student_name); [apply gate_notified | apply notified_next].
Qed.

Lemma notified_final (callback ok : bool) (msg : string) :
  notified callback (notify callback ok msg ;;; (return_ ok msg : M unit)).
Proof.
  rewrite bind_notify. cbn [fst snd return_]. rewrite app_nil_r.
  intros ok' msg' H. inversion H; subst. now exists [].
Qed.

Lemma attempts_loop_notified (callback : bool) (n : nat) :
  forall (first : nat) (c : VideoCapture),
    notified callback
      (attempts_loop self student_id student_name session_id callback now first n c).
Proof.
  induction n as [| n IH]; intros first c; cbn [attempts_loop];
    [apply notified_next |].
  destruct (cap_read c) as [[frame |] c'].
  - apply notified_bind; [apply notified_next |]. intros _.
    apply notified_bind.
    + destruct (detect_known_faces _ _ _); [apply notified_next | apply notified_raise].
    + intro detected. apply notified_bind; [apply names_loop_notified | auto].
  - apply notified_bind; [apply notified_next |]. intros _. apply notified_final.
Qed.

Lemma detect_and_mark_notified (callback : bool) :
  notified callback
    (detect_and_mark self student_id student_name session_id callback now).
Proof.
  unfold detect_and_mark. destruct (cap self) as [c |]; [| apply notified_final].
  destruct (negb (isOpened c)); [apply notified_final |].
  apply notified_bind; [apply attempts_loop_notified |]. intros _.
  apply notified_final.
Qed.

(** Whatever a call returns, it has just told its observer: when a callback
    was passed, the last event of the trace is the callback with the very
    success flag and message that are returned. *)
Theorem return_is_notified (callback : bool) (ok : bool) (msg : string) :
  snd (detect_and_mark self student_id student_name session_id callback now)
  = Return ok msg ->
  exists pre,
    fst (detect_and_mark self student_id student_name session_id callback now)
    = pre ++ cb_events callback ok msg.
Proof. exact (detect_and_mark_notified callback ok msg). Qed.

Lemma gate_muted (attempt : nat) (frame : Frame) (face : Face) :
  muted (gate self student_id student_name session_id true now attempt frame face)
        (gate self student_id student_name session_id false now attempt frame face).
Proof.
  unfold gate.
  destruct (best_distance (recognizer self) (encoding_second face)) as [d | e];
    [rewrite !bind_lift_ok | now split].
  destruct (confidence_of d) as [c | e]; [rewrite !bind_lift_ok | now split].
  destruct (landmarks face) as [| lm rest]; [now split |].
  destruct (dict_get lm "left_eye") as [l | e]; [rewrite !bind_lift_ok | now split].
  destruct (List.length l <? 6)%nat; [now split |].
  destruct (dict_get lm "right_eye") as [r | e]; [rewrite !bind_lift_ok | now split].
  destruct (List.length r <? 6)%nat; [now split |].
  destruct (min_confidence <=? c); [now split |].
  destruct (attempt <? max_retries self - 1)%nat; now split.
Qed.

Lemma attempts_loop_muted (n : nat) :
  forall (first : nat) (c : VideoCapture),
    muted (attempts_loop self student_id student_name session_id true now first n c)
          (attempts_loop self student_id student_name session_id false now first n c).
Proof.
  induction n as [| n IH]; intros first c; cbn [attempts_loop]; [now split |].
  destruct (cap_read c) as [[frame |] c']; [| now split].
  apply muted_bind; [now split |]. intros _.
  apply muted_bind.
  - destruct (detect_known_faces _ _ _); now split.
  - intro detected. apply muted_bind; [| auto].
    unfold names_loop. apply for_each_muted. intro name.
    destruct (String.eqb name student_name); [| now split].
    unfold faces_loop. apply for_each_muted. intro face.
    destruct (String.eqb name student_name); [apply gate_muted | now split].
Qed.

(** The observer is passive: a call without a callback returns the same
    outcome and performs the same reads, sleeps, image write and persistence
    call, in the same order, as the call with a callback; only the
    notifications are absent. *)
Theorem callback_is_passive :
  snd (detect_and_mark self student_id student_name session_id false now)
  = snd (detect_and_mark self student_id student_name session_id true now) /\
  fst (detect_and_mark self student_id student_name session_id false now)
  = strip (fst (detect_and_mark self student_id student_name session_id true now)).
Proof.
  change (muted (detect_and_mark self student_id student_name session_id true now)
                (detect_and_mark self student_id student_name session_id false now)).
  unfold detect_and_mark. destruct (cap self) as [c |]; [| now split].
  destruct (negb (isOpened c)); [now split |].
  apply muted_bind; [apply attempts_loop_muted |]. intros _. now split.
Qed.
End Observer.

Lemma return_is_notified_witness :
  let self := Sample.manager [Some [Sample.face_at 9 16]; Some [Sample.face_at 1 2]] in
  let msg := msg_success "alice" 50 1 in
  snd (detect_and_mark self "42" "alice" None true "20260101_090000") = Return true msg /\
  exists pre,
    fst (detect_and_mark self "42" "alice" None true "20260101_090000")
    = pre ++ cb_events true true msg.
Proof.
  cbv zeta. split; [reflexivity |].
  apply (return_is_notified
           (Sample.manager [Some [Sample.face_at 9 16]; Some [Sample.face_at 1 2]])
           "42" "alice" None "20260101_090000" true true (msg_success "alice" 50 1)).
  reflexivity.
Defined.

(** ** Frames with several faces *)

Lemma for_each_app {A} (body : A -> M unit) (l1 l2 : list A) :
  for_each body (l1 ++ l2) = (for_each body l1 ;;; for_each body l2).
Proof.
  induction l1 as [| a l1 IH]; cbn [app for_each].
  - now rewrite bind_ret.
  - now rewrite IH, bind_assoc.
Qed.

Lemma for_each_all_next {A} (body : A -> M unit) (l : list A) :
  Forall (fun a => snd (body a) = Next tt) l -> snd (for_each body l) = Next tt.
Proof.
  induction 1 as [| a l Ha _ IH]; cbn [for_each]; [reflexivity |].
  destruct (body a) as [ev c]. cbn [snd] in Ha. subst c.
  rewrite bind_next. exact IH.
Qed.

Lemma in_first_split (x : string) (l : list string) :
  In x l -> exists before after, l = before ++ x :: after /\ ~ In x before.
Proof.
  induction l as [| y l IH]; [intros [] |].
  intro H. destruct (string_dec y x) as [E | E].
  - subst y. exists [], l. split; [reflexivity | tauto].
  - destruct H as [H | H]; [congruence |].
    destruct (IH H) as (before & after & Hl & Hb).
    exists (y :: before), after. split; [now rewrite Hl |].
    intros [H' | H']; [congruence | auto].
Qed.

(** When some provisional label of a frame equals the claimed identity, the
    gate runs over every face of the frame in detection order and never
    looks at a face's own label: the first face that has its eyes visible
    and a confidence of at least 50, after faces that were passed over, gets
    the claimed identity accepted, with that face's confidence recorded. *)
Theorem any_face_can_be_accepted (self : AttendanceManager)
    (student_id student_name : string) (session_id : option string)
    (callback : bool) (now : string)
    (attempt : nat) (frame : Frame) (names : list string)
    (before after : list Face) (face : Face) (c : Z) :
  In student_name names ->
  frame = before ++ face :: after ->
  Forall (fun f => snd (gate self student_id student_name session_id callback now
                             attempt frame f) = Next tt) before ->
  scored self face c -> eyes_visible face -> 50 <= c ->
  let r := names_loop self student_id student_name session_id callback now
             attempt frame names in
  snd r = Return true (msg_success student_name c attempt) /\
  In (EvMark student_id student_name session_id (photo_path student_id now) c) (fst r).
Proof.
  intros Hin Hframe Hbefore Hs He Hc. cbv zeta.
  destruct (in_first_split _ _ Hin) as (nb & na & Hnames & Hnb).
  rewrite Hnames.
  rewrite (names_loop_first_match self student_id student_name session_id callback now
             attempt frame nb na Hnb).
  assert (Hloop : for_each (gate self student_id student_name session_id callback now
                              attempt frame) frame
                  = (fst (for_each (gate self student_id student_name session_id
                                      callback now attempt frame) before)
                     ++ [EvImwrite (photo_path student_id now) frame;
                         EvMark student_id student_name session_id
                                (photo_path student_id now) c]
                     ++ cb_events callback true (msg_success student_name c attempt),
                     Return true (msg_success student_name c attempt))).
  { rewrite Hframe at 2. rewrite for_each_app.
    pose proof (for_each_all_next _ _ Hbefore) as Hnext.
    destruct (for_each _ before) as [ev cc]. cbn [snd] in Hnext. subst cc.
    rewrite bind_next. cbn [for_each fst].
    rewrite (gate_confidence self student_id student_name session_id callback now
               attempt frame face c Hs He).
    apply Z.leb_le in Hc. rewrite Hc. now rewrite bind_return. }
  rewrite Hloop, bind_return. cbn [fst snd]. split; [reflexivity |].
  apply in_or_app. right. right. now left.
Qed.

Lemma any_face_can_be_accepted_witness :
  let self := Sample.manager [] in
  let frame := [Sample.face_at 9 16; Sample.bob_face] in
  detect_known_faces Sample.gallery frame default_tolerance
  = Ok (map face_location frame, ["alice"; "bob"]%string) /\
  confidence_of (float_of_frac 9 16) = Ok 43 /\
  let r := names_loop self "42" "alice" None true "20260101_090000" 0 frame
             ["alice"; "bob"]%string in
  snd r = Return true (msg_success "alice" 100 0) /\
  In (EvMark "42" "alice" None (photo_path "42" "20260101_090000") 100) (fst r).
Proof.
  cbv zeta. split; [reflexivity |]. split; [reflexivity |].
  apply (any_face_can_be_accepted (Sample.manager []) "42" "alice" None true
           "20260101_090000" 0 [Sample.face_at 9 16; Sample.bob_face]
           ["alice"; "bob"]%string [Sample.face_at 9 16] [] Sample.bob_face 100).
  - now left.
  - reflexivity.
  - repeat constructor.
  - exists pzero. split; reflexivity.
  - apply sample_eyes_visible.
  - lia.
Defined.

(** ** The back-off sleep *)

Lemma sleeps_at_app (ev1 ev2 : list event) :
  forall reads,
    sleeps_at reads (ev1 ++ ev2)
    = sleeps_at reads ev1 ++ sleeps_at (reads + count is_read ev1) ev2.
Proof.
  induction ev1 as [| e ev1 IH]; intro reads; cbn [app sleeps_at].
  - cbn. now rewrite Nat.add_0_r.
  - destruct e; cbn [sleeps_at]; rewrite IH; unfold count; cbn;
      rewrite ?Nat.add_succ_r; reflexivity.
Qed.

Lemma sleeps_at_cb_events (reads : nat) (callback ok : bool) (msg : string) :
  sleeps_at reads (cb_events callback ok msg) = [].
Proof. now destruct callback. Qed.

Section Sleeps.
Variable self : AttendanceManager.
Variables student_id student_name : string.
Variable session_id : option string.
Variable callback : bool.
Variable now : string.

Local Notation "'run_gate'" := (gate self student_id student_name session_id callback now).
Local Notation "'run_names'" := (names_loop self student_id student_name session_id callback now).
Local Notation "'run_attempts'" := (attempts_loop self student_id student_name session_id callback now).
Local Notation "'run'" := (detect_and_mark self student_id student_name session_id callback now).

(** Sleeps of one second, each after fewer than [max_retries] reads. *)
Local Notation "'early'" :=
  (Forall (fun sr => fst sr = 1%nat /\ (snd sr < max_retries self)%nat)).

Lemma gate_sleeps (attempt : nat) (frame : Frame) (face : Face) :
  early (sleeps_at (S attempt) (fst (run_gate attempt frame face))).
Proof.
  destruct (gate_cases self student_id student_name session_id callback now
              attempt frame face) as [e | | | c Hc | c Hc Hl | c Hc Hl]; cbn [fst].
  - constructor.
  - constructor.
  - rewrite sleeps_at_cb_events. constructor.
  - cbn [app sleeps_at]. rewrite sleeps_at_cb_events. constructor.
  - rewrite sleeps_at_app, sleeps_at_cb_events. cbn [app sleeps_at].
    constructor; [cbn [fst snd]; split; [reflexivity |] | constructor].
    rewrite (count_none is_read) by (destruct callback; repeat constructor). lia.
  - rewrite sleeps_at_cb_events. constructor.
Qed.

Lemma for_each_sleeps {A} (reads : nat) (body : A -> M unit) (l : list A) :
  (forall a, Forall (fun e => is_read e = false) (fst (body a))) ->
  (forall a, early (sleeps_at reads (fst (body a)))) ->
  Forall (fun e => is_read e = false) (fst (for_each body l)) /\
  early (sleeps_at reads (fst (for_each body l))).
Proof.
  intros Hr Hs. induction l as [| a l [IHr IHs]]; cbn [for_each].
  - split; constructor.
  - specialize (Hr a). specialize (Hs a).
    destruct (body a) as [ev [[] | ok msg | e]]; cbn [fst] in Hr, Hs.
    + rewrite bind_next. cbn [fst]. split; [now apply Forall_app |].
      rewrite sleeps_at_app, (count_none is_read ev Hr), Nat.add_0_r.
      now apply Forall_app.
    + rewrite bind_return. now split.
    + rewrite bind_raise. now split.
Qed.

Lemma gate_no_read (attempt : nat) (frame : Frame) (face : Face) :
  Forall (fun e => is_read e = false) (fst (run_gate attempt frame face)).
Proof.
  destruct (gate_pass self student_id student_name session_id callback now
              attempt frame face) as [ev c Hev _ | pre conf Hpre _]; cbn [fst].
  - eapply Forall_impl; [| exact Hev]. now intros ? (? & _).
  - apply Forall_app. split.
    + eapply Forall_impl; [| exact Hpre]. now intros ? (? & _).
    + apply Forall_app. split; [repeat constructor |].
      destruct callback; repeat constructor.
Qed.

Lemma names_loop_sleeps (attempt : nat) (frame : Frame) (names : list string) :
  early (sleeps_at (S attempt) (fst (run_names attempt frame names))).
Proof.
  assert (Hfaces : forall name,
             Forall (fun e => is_read e = false)
                    (fst (faces_loop self student_id student_name session_id callback
                            now attempt frame name)) /\
             early (sleeps_at (S attempt)
                      (fst (faces_loop self student_id student_name session_id callback
                              now attempt frame name)))).
  { intro name. unfold faces_loop. apply for_each_sleeps; intro face;
      destruct (String.eqb name student_name);
      [apply gate_no_read | constructor | apply gate_sleeps | constructor]. }
  unfold names_loop.
  apply (for_each_sleeps (S attempt)
           (fun name => if String.eqb name student_name
                        then faces_loop self student_id student_name session_id callback
                               now attempt frame name
                        else ret tt) names).
  - intro name. destruct (String.eqb name student_name);
      [apply Hfaces | constructor].
  - intro name. destruct (String.eqb name student_name);
      [apply Hfaces | constructor].
Qed.

Lemma attempts_loop_sleeps (n : nat) :
  forall (first : nat) (c : VideoCapture),
    early (sleeps_at first (fst (run_attempts first n c))).
Proof.
  induction n as [| n IH]; intros first c; cbn [attempts_loop]; [constructor |].
  destruct (cap_read c) as [[frame |] c'].
  - rewrite bind_emit. cbn [fst sleeps_at].
    destruct (detect_known_faces (recognizer self) frame default_tolerance)
      as [detected | e]; [rewrite bind_lift_ok | rewrite bind_lift_err; constructor].
    pose proof (names_loop_sleeps first frame (snd detected)) as Hs.
    pose proof (names_loop_no_read self student_id student_name session_id callback now
                  first frame (snd detected)) as Hr.
    destruct (run_names first frame (snd detected)) as [ev [[] | ok msg | e]];
      cbn [fst] in Hs, Hr.
    + rewrite bind_next. cbn [fst].
      rewrite sleeps_at_app, (count_none is_read ev Hr), Nat.add_0_r.
      apply Forall_app. split; [exact Hs | apply IH].
    + now rewrite bind_return.
    + now rewrite bind_raise.
  - rewrite bind_emit, bind_notify. cbn [fst snd return_ sleeps_at].
    rewrite app_nil_r, sleeps_at_cb_events. constructor.
Qed.

(** The engine never sleeps after its last attempt: every sleep of a call
    lasts one second and happens when fewer than [max_retries] frames have
    been read. *)
Theorem sleeps_only_before_a_retry :
  Forall (fun sr => fst sr = 1%nat /\ (snd sr < max_retries self)%nat)
         (sleeps_at 0 (fst run)).
Proof.
  unfold detect_and_mark. destruct (cap self) as [c |].
  - destruct (negb (isOpened c)).
    + rewrite bind_notify. cbn [fst snd return_].
      rewrite app_nil_r, sleeps_at_cb_events. constructor.
    + pose proof (attempts_loop_sleeps (max_retries self) 0%nat c) as Hs.
      destruct (run_attempts 0%nat (max_retries self) c) as [ev [[] | ok msg | e]];
        cbn [fst] in Hs.
      * rewrite bind_next, bind_notify. cbn [fst snd return_].
        rewrite app_nil_r, sleeps_at_app, sleeps_at_cb_events, app_nil_r. exact Hs.
      * now rewrite bind_return.
      * now rewrite bind_raise.
  - rewrite bind_notify. cbn [fst snd return_].
    rewrite app_nil_r, sleeps_at_cb_events. constructor.
Qed.

(** A call never falls off its end: it returns a (success, message) pair or
    raises. *)
Lemma detect_and_mark_ends : snd run <> Next tt.
Proof.
  unfold detect_and_mark. destruct (cap self) as [c |].
  - destruct (negb (isOpened c)).
    + rewrite bind_notify. discriminate.
    + destruct (run_attempts 0%nat (max_retries self) c) as [ev [[] | ok msg | e]].
      * rewrite bind_next, bind_notify. discriminate.
      * rewrite bind_return. discriminate.
      * rewrite bind_raise. discriminate.
  - rewrite bind_notify. discriminate.
Qed.
End Sleeps.

(** ** The camera life cycle *)

Lemma attempts_loop_starts_reading (self : AttendanceManager)
    (student_id student_name : string) (session_id : option string)
    (callback : bool) (now : string) (first n : nat) (c : VideoCapture) :
  exists ok rest,
    fst (attempts_loop self student_id student_name session_id callback now
           first (S n) c) = EvRead ok :: rest.
Proof.
  cbn [attempts_loop]. destruct (cap_read c) as [[frame |] c'];
    rewrite bind_emit; cbn [fst]; eauto.
Qed.

(** The manager keeps [camera_running] in step with its capture object:
    from construction on, through any sequence of [start_camera] and
    [stop_camera], the flag is set exactly when the manager holds an opened
    capture; and [detect_and_mark] answers "Camera not started." without
    reading exactly when the flag is off. *)
Theorem camera_running_iff_usable (file : option (list (string * encoding)))
    (s0 : ManagerState) (ops : list camera_op)
    (student_id student_name : string) (session_id : option string)
    (callback : bool) (now : string) :
  manager_init file = Ok s0 ->
  let s := camera_steps ops s0 in
  (camera_running s = true <->
   exists c, cap (manager s) = Some c /\ isOpened c = true) /\
  (camera_running s = false <->
   detect_and_mark (manager s) student_id student_name session_id callback now
   = (cb_events callback false msg_camera, Return false msg_camera)).
Proof.
  intro Hinit. cbv zeta.
  assert (Hinv : forall s,
             max_retries (manager s) = 3%nat ->
             (camera_running s = true <->
              exists c, cap (manager s) = Some c /\ isOpened c = true) ->
             max_retries (manager (camera_steps ops s)) = 3%nat /\
             (camera_running (camera_steps ops s) = true <->
              exists c, cap (manager (camera_steps ops s)) = Some c /\
                        isOpened c = true)).
  { induction ops as [| op ops IH]; intros s Hmax Hs; [now split |].
    cbn [camera_steps fold_left]. apply IH.
    - destruct op as [device |]; cbn [camera_step]; [| exact Hmax].
      unfold start_camera. destruct (camera_running s); [exact Hmax |].
      destruct (isOpened device); exact Hmax.
    - destruct op as [device |]; cbn [camera_step].
      + unfold start_camera.
        destruct (camera_running s) eqn:Er; [cbn [fst]; rewrite Er; exact Hs |].
        destruct (isOpened device) eqn:Eo; cbn [fst camera_running manager with_cap cap].
        * split; [eauto | reflexivity].
        * split; [discriminate |]. intros (c & Hc & Hopen).
          inversion Hc; subst. congruence.
      + cbn [stop_camera fst camera_running manager with_cap cap].
        split; [discriminate | intros (c & Hc & _); discriminate]. }
  assert (H0 : max_retries (manager s0) = 3%nat /\ camera_running s0 = false /\
               cap (manager s0) = None).
  { unfold manager_init in Hinit. destruct (load_encodings file); [| discriminate].
    inversion Hinit. now subst. }
  destruct H0 as (Hmax0 & Hrun0 & Hcap0).
  destruct (Hinv s0 Hmax0) as (Hmax & Hiff).
  { rewrite Hrun0, Hcap0. split; [discriminate | intros (c & Hc & _); discriminate]. }
  split; [exact Hiff |].
  split.
  - intro Hoff. apply no_camera_run.
    destruct (cap (manager (camera_steps ops s0))) as [c |] eqn:Ec; [| now left].
    right. exists c. split; [reflexivity |].
    destruct (isOpened c) eqn:Eo; [| reflexivity].
    assert (camera_running (camera_steps ops s0) = true) by (apply Hiff; eauto).
    congruence.
  - intro Hrefuse.
    destruct (camera_running (camera_steps ops s0)) eqn:Er; [| reflexivity].
    destruct (proj1 Hiff eq_refl) as (c & Hc & Hopen).
    exfalso. revert Hrefuse. unfold detect_and_mark.
    rewrite Hc, Hopen, Hmax. cbn [negb].
    destruct (attempts_loop_starts_reading (manager (camera_steps ops s0))
                student_id student_name session_id callback now 0 2 c)
      as (ok & rest & Hfirst).
    destruct (attempts_loop _ _ _ _ _ _ 0 3 c) as [ev [[] | ok' msg | e]];
      cbn [fst] in Hfirst; subst ev.
    + rewrite bind_next. cbn [fst snd]. destruct callback; discriminate.
    + rewrite bind_return. destruct callback; discriminate.
    + rewrite bind_raise. discriminate.
Qed.

Lemma camera_running_iff_usable_witness :
  let device := {| isOpened := true; pending := [None] |} in
  let dead := {| isOpened := false; pending := [] |} in
  let ops := [Start dead; Start device; Start dead] in
  exists s0,
    manager_init (Some Sample.gallery_file) = Ok s0 /\
    let s := camera_steps ops s0 in
    camera_running s = true /\
    (camera_running s = true <->
     exists c, cap (manager s) = Some c /\ isOpened c = true) /\
    (camera_running s = false <->
     detect_and_mark (manager s) "42" "alice" None true "20260101_090000"
     = (cb_events true false msg_camera, Return false msg_camera)).
Proof.
  cbv zeta. eexists. split; [reflexivity |]. split; [reflexivity |].
  apply (camera_running_iff_usable (Some Sample.gallery_file) _
           [Start {| isOpened := false; pending := [] |};
            Start {| isOpened := true; pending := [None] |};
            Start {| isOpened := false; pending := [] |}]
           "42" "alice" None true "20260101_090000").
  reflexivity.
Defined.

(** [stop_camera] always leaves the manager without a camera: the capture
    is released exactly when one was held, the retry counter is reset, a
    second stop releases nothing, and [detect_and_mark] then refuses with
    "Camera not started." without reading a frame. *)
Theorem stop_camera_disarms (s : ManagerState)
    (student_id student_name : string) (session_id : option string)
    (callback : bool) (now : string) :
  let s' := fst (stop_camera s) in
  camera_running s' = false /\ retry_count s' = 0%nat /\ cap (manager s') = None /\
  recognizer (manager s') = recognizer (manager s) /\
  (snd (stop_camera s) = [Release] <-> cap (manager s) <> None) /\
  stop_camera s' = (s', []) /\
  detect_and_mark (manager s') student_id student_name session_id callback now
  = (cb_events callback false msg_camera, Return false msg_camera).
Proof.
  cbv zeta. cbn [stop_camera fst snd camera_running retry_count manager with_cap cap
                 recognizer max_retries].
  repeat split; try reflexivity.
  - destruct (cap (manager s)); [discriminate | intro H; discriminate].
  - destruct (cap (manager s)); [reflexivity | intro H; now destruct H].
  - apply no_camera_run. now left.
Qed.



(** ** The attendance worker *)

Lemma emitted_app (a b : list event) : emitted (a ++ b) = emitted a ++ emitted b.
Proof. unfold emitted. apply flat_map_app. Qed.

Lemma emitted_unrecorded (ev : list event) :
  Forall unrecorded ev -> Forall (fun s => signal_success s = false) (emitted ev).
Proof.
  induction 1 as [| e ev (_ & _ & He) _ IH]; [constructor |].
  destruct e as [b | ok msg | n | p f | a b c d g]; cbn; auto.
  destruct ok; [discriminate | now constructor].
Qed.

(** Every run of the worker ends with a signal, so the window always hears
    back: all signals before the last report failure, and the last one
    reports success exactly when the call created the attendance record;
    an exception inside the call becomes a final failure signal. *)
Theorem worker_always_reports (error_text : exn -> string)
    (self : AttendanceManager) (student_id name : string)
    (photo_path : option string) (now : string) :
  exists (earlier : list signal) (last : signal),
    worker_run error_text self student_id name photo_path now = earlier ++ [last] /\
    Forall (fun s => signal_success s = false) earlier /\
    (signal_success last = true <->
     count is_mark (fst (detect_and_mark self student_id name photo_path true now))
     = 1%nat).
Proof.
  unfold worker_run.
  pose proof (detect_and_mark_ends self student_id name photo_path true now) as Hend.
  pose proof (detect_and_mark_notified self student_id name photo_path now true) as Hnot.
  destruct (detect_and_mark_result self student_id name photo_path true now)
    as [ev c Hev Hc | pre conf attempt frame Hpre Hconf Hatt Hreads];
    cbn [fst snd] in *.
  - assert (Hmarks : count is_mark ev = 0%nat)
      by (apply count_none; eapply Forall_impl; [| exact Hev]; now intros ? (? & _)).
    destruct c as [[] | ok msg | e]; [congruence | |].
    + destruct ok; [now destruct (Hc msg) |].
      destruct (Hnot false msg eq_refl) as (p & Hp). cbn in Hp. subst ev.
      apply Forall_app in Hev. destruct Hev as (Hp & _).
      exists (emitted p), (Finished false msg).
      rewrite emitted_app, app_nil_r. cbn.
      split; [reflexivity |]. split; [now apply emitted_unrecorded |].
      rewrite Hmarks. split; discriminate.
    + exists (emitted ev), (Finished false ("Error: " ++ error_text e)%string).
      split; [reflexivity |]. split; [now apply emitted_unrecorded |].
      rewrite Hmarks. cbn. split; discriminate.
  - exists (emitted pre), (Finished true (msg_success name conf attempt)).
    rewrite !emitted_app, app_nil_r. cbn.
    split; [reflexivity |]. split; [now apply emitted_unrecorded |].
    split; [intros _ | reflexivity].
    rewrite !count_app.
    rewrite (count_none is_mark pre)
      by (eapply Forall_impl; [| exact Hpre]; now intros ? (? & _)).
    reflexivity.
Qed.

(** ** detect_known_faces on a loaded gallery *)

Lemma provisional_label_loaded (file : list (string * encoding))
    (self : FaceRecognition) (tolerance : float) (probe : encoding) :
  load_encodings (Some file) = Ok self ->
  exists name,
    provisional_label self tolerance probe = Ok name /\
    (name = "Unknown"%string \/ In name (known_face_names self)).
Proof.
  intro Hload. destruct (load_encodings_shape _ _ Hload) as (Hn & He & Hne).
  assert (Hds : face_distance (known_face_encodings self) probe <> []).
  { intro E. apply (f_equal (@List.length float)) in E.
    rewrite face_distance_length, He, length_map in E.
    destruct file; [congruence | discriminate]. }
  destruct (np_argmin_nonempty _ Hds) as (k & Hk).
  pose proof (np_argmin_bound _ _ Hk) as Hlen.
  rewrite face_distance_length, He, length_map in Hlen.
  rewrite (provisional_label_argmin _ _ _ _ Hk).
  destruct (fltb _ tolerance); [| eauto].
  destruct (nth_error (known_face_names self) k) as [name |] eqn:E.
  - exists name. split; [reflexivity |]. right. eapply nth_error_In; eauto.
  - apply nth_error_None in E. rewrite Hn, length_map in E. lia.
Qed.

(** On a gallery built by [load_encodings], [detect_known_faces] never
    raises: for every frame and tolerance it returns the boxes unchanged and
    exactly one label per detected face, each label being "Unknown" or one
    of the enrolled names. *)
Theorem detect_known_faces_labels (file : list (string * encoding))
    (self : FaceRecognition) (image : Frame) (tolerance : float) :
  load_encodings (Some file) = Ok self ->
  exists names,
    detect_known_faces self image tolerance = Ok (map face_location image, names) /\
    List.length names = List.length image /\
    Forall (fun name => name = "Unknown"%string \/ In name (known_face_names self))
           names.
Proof.
  intro Hload. unfold detect_known_faces.
  induction image as [| face image (names & Hrun & Hlen & Hall)]; cbn [res_map].
  - exists []. repeat split. constructor.
  - destruct (provisional_label_loaded file self tolerance (encoding_first face) Hload)
      as (name & Hname & Hin).
    rewrite Hname. cbn [res_bind].
    destruct (res_map _ image) as [names' |]; [| discriminate].
    cbn [res_bind] in *. inversion Hrun; subst names'.
    exists (name :: names). repeat split; cbn; auto.
Qed.

Lemma detect_known_faces_labels_witness :
  load_encodings (Some Sample.gallery_file) = Ok Sample.gallery /\
  exists names,
    detect_known_faces Sample.gallery [Sample.face_at 3 4; Sample.bob_face]
      default_tolerance
    = Ok (map face_location [Sample.face_at 3 4; Sample.bob_face], names) /\
    List.length names = List.length [Sample.face_at 3 4; Sample.bob_face] /\
    Forall (fun name => name = "Unknown"%string \/
                        In name (known_face_names Sample.gallery)) names.
Proof.
  split; [reflexivity |].
  exact (detect_known_faces_labels Sample.gallery_file Sample.gallery
           [Sample.face_at 3 4; Sample.bob_face] default_tolerance eq_refl).
Defined.
